(** * FAQ agent: the retrieval-answering pipeline of [FAQProcessor]

    A shallow embedding of [src/workflows/faq_agent/faq_processor.py].

    - Python [str] values are lists of Unicode code points.
    - Python [float] values are IEEE 754 binary64 numbers, taken from
      the specification of floating-point arithmetic of the standard
      library ([SpecFloat]): every operation is the correctly rounded
      one (round to nearest, ties to even).
    - The external collaborators (completion service, vector store,
      file system, document loader and splitter) are oracles that may
      raise; they answer as a function of the calls made so far, so that
      two calls with the same arguments may behave differently.
    - Methods that touch [self] or a collaborator live in a state and
      exception monad over the processor object. *)

From Stdlib Require Import ZArith NArith List Lia Bool String Ascii.
From Stdlib Require Import SpecFloat.
Import ListNotations.
Open Scope Z_scope.

(* ================================================================= *)
(** ** Python strings *)

Module PyStr.

Definition char := N.
Definition str := list char.

(** a literal of the source, all of which are ASCII *)
Definition lit (s : string) : str :=
  List.map N_of_ascii (list_ascii_of_string s).

Definition newline : str := [10%N].

Definition len {A : Type} (l : list A) : Z := Z.of_nat (List.length l).

Definition char_eqb (a b : char) : bool := N.eqb a b.

Fixpoint str_eqb (a b : str) : bool :=
  match a, b with
  | [], [] => true
  | x :: a', y :: b' => char_eqb x y && str_eqb a' b'
  | _, _ => false
  end.

(** truth value of a string: [not s] holds of the empty string only *)
Definition truthy (s : str) : bool :=
  match s with [] => false | _ :: _ => true end.

(** [str.isspace] on one code point, the table of CPython's
    [_PyUnicode_IsWhitespace] *)
Definition isspace (c : char) : bool :=
  (((9 <=? c) && (c <=? 13)) || ((28 <=? c) && (c <=? 32))
   || (c =? 133) || (c =? 160) || (c =? 5760)
   || ((8192 <=? c) && (c <=? 8202))
   || (c =? 8232) || (c =? 8233) || (c =? 8239) || (c =? 8287)
   || (c =? 12288))%N.

(** [s.split()]: the maximal runs of characters that are not white
    space, in order; [word] is the run being read *)
Fixpoint split_from (s : str) (word : option str) : list str :=
  match s with
  | [] => match word with None => [] | Some w => [w] end
  | c :: rest =>
      if isspace c then
        match word with
        | None => split_from rest None
        | Some w => w :: split_from rest None
        end
      else
        split_from rest
          (Some (match word with None => [c] | Some w => w ++ [c] end))
  end.

Definition split (s : str) : list str := split_from s None.

Fixpoint lstrip (s : str) : str :=
  match s with
  | [] => []
  | c :: rest => if isspace c then lstrip rest else s
  end.

Definition rstrip (s : str) : str := rev (lstrip (rev s)).

(** [s.strip()] *)
Definition strip (s : str) : str := rstrip (lstrip s).

(** [s.split(sep)] for a separator of one character *)
Fixpoint split_on (sep : char) (s : str) : list str :=
  match s with
  | [] => [[]]
  | c :: rest =>
      if char_eqb c sep then [] :: split_on sep rest
      else match split_on sep rest with
           | [] => [[c]]
           | piece :: pieces => (c :: piece) :: pieces
           end
  end.

(** [c in s] for a string [c] of one character *)
Definition contains (c : char) (s : str) : bool := existsb (char_eqb c) s.

(** [sep.join(parts)] *)
Fixpoint join (sep : str) (parts : list str) : str :=
  match parts with
  | [] => []
  | [p] => p
  | p :: rest => p ++ sep ++ join sep rest
  end.

(** the lines of a triple-quoted literal *)
Definition unlines (ls : list string) : str := join newline (List.map lit ls).

(** [os.path.dirname] of [posixpath]: everything before the last
    slash, without trailing slashes unless the head is all slashes *)
Definition slash : char := 47%N.

Fixpoint drop_last_component (s : str) : str :=
  match s with
  | [] => []
  | c :: rest =>
      if contains slash rest then c :: drop_last_component rest
      else if char_eqb c slash then [c] else []
  end.

Fixpoint rstrip_slash_rev (r : str) : str :=
  match r with
  | [] => []
  | c :: rest => if char_eqb c slash then rstrip_slash_rev rest else r
  end.

Definition os_path_dirname (p : str) : str :=
  let head := drop_last_component p in
  if truthy head && negb (forallb (char_eqb slash) head)
  then rev (rstrip_slash_rev (rev head))
  else head.

(** the spec's word count: the number of places where a word starts,
    that is a character that is not white space and follows white space
    or the start of the string *)
Fixpoint word_starts (after_space : bool) (s : str) : nat :=
  match s with
  | [] => 0
  | c :: rest =>
      (if after_space && negb (isspace c) then 1 else 0)%nat
      + word_starts (isspace c) rest
  end%nat.

Definition count_words (s : str) : Z := Z.of_nat (word_starts true s).

End PyStr.
Import PyStr.

(* ================================================================= *)
(** ** Python floats: IEEE 754 binary64 *)

Module PyFloat.

Definition prec : Z := 53.
Definition emax : Z := 1024.

Definition float := spec_float.

Definition fadd : float -> float -> float := SFadd prec emax.
Definition fmul : float -> float -> float := SFmul prec emax.
Definition fdiv : float -> float -> float := SFdiv prec emax.
Definition flt : float -> float -> bool := SFltb.
Definition fle : float -> float -> bool := SFleb.

(** an [int] as the pair (mantissa, exponent 0); exact, and only used
    as an operand of the division below *)
Definition int_to_float (z : Z) : float :=
  match z with
  | Z0 => S754_zero false
  | Zpos p => S754_finite false p 0
  | Zneg p => S754_finite true p 0
  end.

(** [a / b] on [int]: the correctly rounded quotient.  CPython raises
    [OverflowError] where the rounded quotient is not finite; the source
    divides the length of a list, which is below [2^63], by the literal
    [1000], and that quotient is finite
    ([list_length_quotient_finite] below). *)
Definition int_truediv (a b : Z) : float :=
  fdiv (int_to_float a) (int_to_float b).

(** a decimal literal [d / 10^k] of the source: the nearest binary64 *)
Definition decimal (d : Z) (k : Z) : float := int_truediv d (10 ^ k).

(** [min(a, b)]: the first argument unless the second is smaller *)
Definition py_min (a b : float) : float := if flt b a then b else a.

(** nearest integer to [num / den], ties to even; [den > 0] *)
Definition round_half_even (num den : Z) : Z :=
  let q := num / den in
  match (2 * (num mod den)) ?= den with
  | Lt => q
  | Gt => q + 1
  | Eq => if Z.even q then q else q + 1
  end.

(** [round(x, ndigits)] for [0 <= ndigits]: the exact value of [x] is
    rounded to [ndigits] decimal places, ties to even, and the decimal
    obtained is converted back to the nearest binary64
    (float.__round__: correctly rounded decimal string, then strtod) *)
Definition py_round (x : float) (ndigits : Z) : float :=
  match x with
  | S754_finite s m e =>
      let n := round_half_even (Zpos m * 10 ^ ndigits * 2 ^ Z.max e 0)
                               (2 ^ Z.max (- e) 0) in
      match n with
      | Zpos p => fdiv (S754_finite s p 0) (int_to_float (10 ^ ndigits))
      | _ => S754_zero s
      end
  | _ => x
  end.

End PyFloat.
Import PyFloat.

Declare Scope pyfloat_scope.
Delimit Scope pyfloat_scope with py.
Infix "+" := fadd : pyfloat_scope.
Infix "*" := fmul : pyfloat_scope.
Infix "<?" := flt : pyfloat_scope.
Infix "<=?" := fle : pyfloat_scope.

(* ================================================================= *)
(** ** Exceptions, collaborators and the processor object *)

Inductive exn : Type := Exception (message : str).

Inductive result (A : Type) : Type :=
| Ok (value : A)
| Raise (e : exn).
Arguments Ok {A} value.
Arguments Raise {A} e.

(** a LangChain document: its text and the file it came from *)
Record Document : Type := { page_content : str; metadata_source : str }.

(** the calls made to the collaborators, oldest first *)
Inductive call : Type :=
| LlmInvoke (prompt : str)
| SimilaritySearch (query : str) (k : Z)
| Makedirs (path : str)
| PathExists (path : str)
| LoaderLoad (path : str)
| SplitDocuments (chunk_size chunk_overlap : Z) (documents : list Document)
| FaissFromDocuments (splits : list Document)
| AppendText (path : str) (text : str).

(** The collaborators.  [index] is the vector store object built by
    [FAISS.from_documents]; every oracle sees the calls made before. *)
Record services (index : Type) : Type := {
  llm_ainvoke : list call -> str -> result str;
  similarity_search : list call -> index -> str -> Z -> result (list Document);
  os_makedirs : list call -> str -> result unit;
  os_path_exists : list call -> str -> bool;
  text_loader_load : list call -> str -> result (list Document);
  split_documents : list call -> Z -> Z -> list Document -> result (list Document);
  faiss_from_documents : list call -> list Document -> result index;
  append_text : list call -> str -> str -> result unit;
  (** [str.lower], whose Unicode case tables are not modelled *)
  str_lower : str -> str
}.
Arguments llm_ainvoke {index} _ _ _.
Arguments similarity_search {index} _ _ _ _ _.
Arguments os_makedirs {index} _ _ _.
Arguments os_path_exists {index} _ _ _.
Arguments text_loader_load {index} _ _ _.
Arguments split_documents {index} _ _ _ _ _.
Arguments faiss_from_documents {index} _ _ _.
Arguments append_text {index} _ _ _ _.
Arguments str_lower {index} _ _.

(** [self]: the vector store (or [None]) and the calls made so far *)
Record processor (index : Type) : Type := {
  vectorstore : option index;
  history : list call
}.
Arguments vectorstore {index} _.
Arguments history {index} _.
Arguments Build_processor {index} _ _.

Record FAQResponse : Type := {
  answer : str;
  confidence : float;
  source : str;
  related_questions : list str
}.

(** *** The monad of methods: state and exceptions *)

Module Method.
Section Method.
Context {index : Type}.

Definition M (A : Type) : Type :=
  processor index -> result A * processor index.

Definition ret {A} (a : A) : M A := fun self => (Ok a, self).

Definition bind {A B} (m : M A) (k : A -> M B) : M B :=
  fun self =>
  match m self with
  | (Ok a, self') => k a self'
  | (Raise e, self') => (Raise e, self')
  end.

(** [try: body except Exception as e: handler e]; what the body did
  to [self] before raising stays done *)
Definition try_except {A} (body : M A) (handler : exn -> M A) : M A :=
  fun self =>
  match body self with
  | (Ok a, self') => (Ok a, self')
  | (Raise e, self') => handler e self'
  end.

Definition get_vectorstore : M (option index) :=
  fun self => (Ok (vectorstore self), self).

Definition set_vectorstore (v : option index) : M unit :=
  fun self => (Ok tt, Build_processor v (history self)).

(** a call to a collaborator: it is answered on the calls made before
  and then recorded *)
Definition external {A} (c : call) (reply : list call -> result A) : M A :=
  fun self =>
  (reply (history self),
   Build_processor (vectorstore self) (history self ++ [c])).

(** a call that cannot raise *)
Definition external_total {A} (c : call) (reply : list call -> A) : M A :=
  external c (fun h => Ok (reply h)).

End Method.
End Method.
Import Method.

Notation "x <- m ;; k" := (bind m (fun x => k))
  (at level 61, m at next level, right associativity).
Notation "m ;;; k" := (bind m (fun _ => k))
  (at level 61, right associativity).

(* ================================================================= *)
(** ** [FAQProcessor] *)

Module FAQ.

(** *** Literals of the source *)

Definition no_knowledge_base : str := lit "No knowledge base available.".
Definition retrieval_error : str := lit "Error retrieving relevant information.".
Definition general : str := lit "general".
Definition knowledge_base : str := lit "knowledge_base".
Definition error : str := lit "error".
Definition apology : str :=
  lit "I apologize, but I'm having trouble processing your question. Please contact our support team for assistance.".
Definition kb_dir : str := lit "data/knowledge_base".
Definition faq_file : str := lit "data/knowledge_base/faq.txt".
Definition faq_files : list str :=
  [ lit "data/knowledge_base/faq.txt";
    lit "data/knowledge_base/products.txt";
    lit "data/knowledge_base/support.txt" ].
Definition question_mark : char := 63%N.
Definition full_stop : char := 46%N.

(** the template of [faq_prompt], cut at its three input variables *)
Definition faq_prompt_0 : str := unlines
  [ EmptyString;
    "            You are a helpful customer service representative. Answer this customer question based on the provided context and business information.";
    "            ";
    "            Customer Question: " ]%string.
Definition faq_prompt_1 : str := unlines
  [ EmptyString;
    "            ";
    "            Relevant Context: " ]%string.
Definition faq_prompt_2 : str := unlines
  [ EmptyString;
    "            ";
    "            Business Information: " ]%string.
Definition faq_prompt_3 : str := unlines
  [ EmptyString;
    "            ";
    "            Guidelines:";
    "            - Provide a clear, helpful answer";
    "            - If you cannot find the answer in the context, say so politely";
    "            - Be professional and friendly";
    "            - Include relevant details but keep it concise";
    "            - If appropriate, suggest next steps or additional resources";
    "            ";
    "            Answer:";
    "            " ]%string.

Definition faq_prompt (question context business_info : str) : str :=
  faq_prompt_0 ++ question ++ faq_prompt_1 ++ context
    ++ faq_prompt_2 ++ business_info ++ faq_prompt_3.

(** the template of [classification_prompt] *)
Definition classification_prompt_0 : str := unlines
  [ EmptyString;
    "            Classify this customer question into one of these categories:";
    "            - product_info: Questions about products or services";
    "            - support: Technical support or troubleshooting";
    "            - billing: Questions about pricing, payments, or billing";
    "            - general: General inquiries or other questions";
    "            ";
    "            Question: " ]%string.
Definition classification_prompt_1 : str := unlines
  [ EmptyString;
    "            ";
    "            Respond with just the category name:";
    "            " ]%string.

Definition classification_prompt (question : str) : str :=
  classification_prompt_0 ++ question ++ classification_prompt_1.

Definition _get_business_info : str := unlines
  [ EmptyString;
    "        We are a small business focused on providing excellent customer service.";
    "        Our business hours are Monday-Friday 9AM-5PM.";
    "        We aim to respond to all inquiries within 24 hours.";
    "        For urgent matters, please call our support line.";
    "        " ]%string.

(** the response of the [except] branch of [answer_question] *)
Definition failed_response : FAQResponse :=
  {| answer := apology;
     confidence := S754_zero false;
     source := error;
     related_questions := [] |}.

(** *** The confidence heuristic *)

Definition _calculate_confidence (question context : str) : float :=
  if negb (truthy context) || str_eqb context no_knowledge_base then
    decimal 3 1
  else
    let context_length := len (split context) in
    let question_length := len (split question) in
    let base_confidence :=
      py_min (decimal 9 1)
             (decimal 5 1 + int_truediv context_length 1000 * decimal 4 1)%py in
    let base_confidence :=
      if 10 <? question_length then (base_confidence * decimal 9 1)%py
      else base_confidence in
    py_round base_confidence 2.

(** *** Related questions: the two loops and the [break] *)

Fixpoint scan_sentences (sentences : list str) (related : list str)
  : list str :=
  match sentences with
  | [] => related
  | sentence :: rest =>
      if contains question_mark sentence && (10 <? len (strip sentence)) then
        let related := related ++ [strip sentence] in
        if 3 <=? len related then related
        else scan_sentences rest related
      else scan_sentences rest related
  end.

Fixpoint scan_docs (docs : list Document) (related : list str) : list str :=
  match docs with
  | [] => related
  | doc :: rest =>
      let content := page_content doc in
      let related :=
        if contains question_mark content
        then scan_sentences (split_on full_stop content) related
        else related in
      scan_docs rest related
  end.

Section Methods.
Context {index : Type} (sv : services index).
Local Abbreviation method := (@M index).

(** *** Calls to the collaborators *)

Definition chain_ainvoke (prompt : str) : method str :=
  external (LlmInvoke prompt) (fun h => llm_ainvoke sv h prompt).

Definition vs_similarity_search (store : index) (query : str) (k : Z)
  : method (list Document) :=
  external (SimilaritySearch query k)
           (fun h => similarity_search sv h store query k).

Definition makedirs (path : str) : method unit :=
  external (Makedirs path) (fun h => os_makedirs sv h path).

Definition path_exists (path : str) : method bool :=
  external_total (PathExists path) (fun h => os_path_exists sv h path).

Definition loader_load (path : str) : method (list Document) :=
  external (LoaderLoad path) (fun h => text_loader_load sv h path).

Definition splitter_split_documents (chunk_size chunk_overlap : Z)
           (documents : list Document) : method (list Document) :=
  external (SplitDocuments chunk_size chunk_overlap documents)
           (fun h => split_documents sv h chunk_size chunk_overlap documents).

Definition faiss_build (splits : list Document) : method index :=
  external (FaissFromDocuments splits)
           (fun h => faiss_from_documents sv h splits).

Definition open_append_write (path text : str) : method unit :=
  external (AppendText path text) (fun h => append_text sv h path text).

(** *** [load_knowledge_base] *)

Fixpoint load_files (paths : list str) (documents : list Document)
  : method (list Document) :=
  match paths with
  | [] => ret documents
  | file_path :: rest =>
      present <- path_exists file_path ;;
      documents <-
        (if present : bool then
           try_except
             (docs <- loader_load file_path ;;
              ret (documents ++ docs))
             (fun _ => ret documents)
         else ret documents) ;;
      load_files rest documents
  end.

Definition load_knowledge_base_body : method unit :=
  makedirs kb_dir ;;;
  documents <- load_files faq_files [] ;;
  match documents with
  | _ :: _ =>
      splits <- splitter_split_documents 1000 200 documents ;;
      store <- faiss_build splits ;;
      set_vectorstore (Some store)
  | [] => set_vectorstore None
  end.

Definition load_knowledge_base : method unit :=
  try_except load_knowledge_base_body (fun _ => set_vectorstore None).

(** *** [answer_question] and its helpers *)

Definition _classify_question (question : str) : method str :=
  try_except
    (result <- chain_ainvoke (classification_prompt question) ;;
     ret (str_lower sv (strip result)))
    (fun _ => ret general).

Definition _get_relevant_context (question : str) : method str :=
  store <- get_vectorstore ;;
  match store with
  | None => ret no_knowledge_base
  | Some store =>
      try_except
        (docs <- vs_similarity_search store question 3 ;;
         ret (join (newline ++ newline) (List.map page_content docs)))
        (fun _ => ret retrieval_error)
  end.

Definition _get_related_questions (question : str) : method (list str) :=
  store <- get_vectorstore ;;
  match store with
  | None => ret []
  | Some store =>
      try_except
        (docs <- vs_similarity_search store question 5 ;;
         ret (firstn 3 (scan_docs docs [])))
        (fun _ => ret [])
  end.

Definition full_context (context relevant_context : str) : str :=
  if truthy context then context ++ newline ++ newline ++ relevant_context
  else relevant_context.

Definition answer_question_body (question context : str) : method FAQResponse :=
  question_type <- _classify_question question ;;
  relevant_context <- _get_relevant_context question ;;
  let full_context := full_context context relevant_context in
  let business_info := _get_business_info in
  answer <- chain_ainvoke (faq_prompt question full_context business_info) ;;
  let confidence := _calculate_confidence question relevant_context in
  related_questions <- _get_related_questions question ;;
  ret {| answer := strip answer;
         confidence := confidence;
         source := knowledge_base;
         related_questions := related_questions |}.

Definition answer_question (question context : str) : method FAQResponse :=
  try_except (answer_question_body question context)
             (fun _ => ret failed_response).

(** *** [add_faq_entry] *)

Definition faq_entry (question answer category : str) : str :=
  lit "Q: " ++ question ++ newline ++ lit "A: " ++ answer ++ newline
    ++ lit "Category: " ++ category ++ newline ++ newline.

(** the block that the source comments as: Append to FAQ file *)
Definition append_to_faq_file (entry : str) : method unit :=
  makedirs (os_path_dirname faq_file) ;;;
  open_append_write faq_file entry.

Definition add_faq_entry (question answer category : str) : method bool :=
  try_except
    (let faq_entry := faq_entry question answer category in
     append_to_faq_file faq_entry ;;;
     load_knowledge_base ;;;
     ret true)
    (fun _ => ret false).

End Methods.

End FAQ.
Import FAQ.

(* ================================================================= *)
(** ** The properties in the words of the specification *)

Module Spec.

(** the confidence heuristic of section 4.5; word counts are numbers of
    white-space separated words *)
Definition confidence_formula (question context : str) : float :=
  if negb (truthy context) || str_eqb context no_knowledge_base then
    decimal 3 1
  else
    py_round
      (py_min (decimal 9 1)
              (decimal 5 1 + int_truediv (count_words context) 1000 * decimal 4 1)
       * (if (10 <? count_words question)%Z then decimal 9 1 else decimal 1 0))%py
      2.

(** a sentence that qualifies as a related question *)
Definition is_question_sentence (sentence : str) : bool :=
  contains question_mark sentence && (10 <? len (strip sentence)).

(** the stripped question sentences of one chunk, in order *)
Definition question_sentences (content : str) : list str :=
  List.map strip (filter is_question_sentence (split_on full_stop content)).

(** the related questions of the retrieved chunks: the first three
    question sentences in chunk order *)
Definition related_of_chunks (docs : list Document) : list str :=
  firstn 3 (flat_map (fun doc => question_sentences (page_content doc)) docs).

End Spec.

(* ================================================================= *)
(** ** Order on dyadic numbers and lower bounds of floats *)

Module Dyadic.

(** [m1 * 2^e1 <= m2 * 2^e2], stated on integers *)
Definition dle (m1 e1 m2 e2 : Z) : Prop :=
  m1 * 2 ^ (e1 - Z.min e1 e2) <= m2 * 2 ^ (e2 - Z.min e1 e2).

(** [x] is plus infinity or a valid positive binary64 number that is
    at least [rm * 2^re] *)
Definition ge_bound (rm re : Z) (x : float) : Prop :=
  x = S754_infinity false \/
  exists m e, x = S754_finite false m e /\ bounded prec emax m e = true /\
              dle rm re (Zpos m) e.

End Dyadic.
Import Dyadic.

(* ================================================================= *)
(** ** The heuristic as a function of the two word counts *)

Module Heuristic.

(** [base_confidence] before the adjustment, for a context of [n] words *)
Definition base_of (n : Z) : float :=
  py_min (decimal 9 1) (decimal 5 1 + int_truediv n 1000 * decimal 4 1)%py.

(** the value returned for a context of [n] words that is neither empty
    nor the placeholder; [complex] says that the question has more than
    ten words *)
Definition confidence_of (complex : bool) (n : Z) : float :=
  py_round (if complex then (base_of n * decimal 9 1)%py else base_of n) 2.

Definition is_positive_finite (x : float) : bool :=
  match x with S754_finite false _ _ => true | _ => false end.

(** structural equality of floats *)
Definition float_eqb (x y : float) : bool :=
  match x, y with
  | S754_zero a, S754_zero b => Bool.eqb a b
  | S754_infinity a, S754_infinity b => Bool.eqb a b
  | S754_nan, S754_nan => true
  | S754_finite a m e, S754_finite b m' e' =>
      Bool.eqb a b && Pos.eqb m m' && Z.eqb e e'
  | _, _ => false
  end.

Definition is_finite (x : float) : bool :=
  match x with
  | S754_zero _ | S754_finite _ _ _ => true
  | _ => false
  end.

(** [x] is a valid binary64 number at most half a unit in the last
    place away from the quotient [a / b], for [0 <= a] and [0 < b] *)
Definition within_half_ulp (a b : Z) (x : float) : bool :=
  match x with
  | S754_zero _ => a =? 0
  | S754_finite false m e =>
      bounded prec emax m e
      && (if 0 <=? e
          then 2 * Z.abs (a - Zpos m * 2 ^ e * b) <=? 2 ^ e * b
          else 2 * Z.abs (a * 2 ^ (- e) - Zpos m * b) <=? b)
  | _ => false
  end.

(** the word counts [0 .. 1000], below the cap of the heuristic *)
Definition counts_below_cap : list Z := List.map Z.of_nat (seq 0 1001).

End Heuristic.
Import Heuristic.

(* ================================================================= *)
(** ** What the collaborators reply during one [answer_question] *)

Module Replies.
Section Replies.
Context {index : Type} (sv : services index).

(** [self] after one more call *)
Definition logged (self : processor index) (c : call) : processor index :=
  Build_processor (vectorstore self) (history self ++ [c]).

(** the reply to the classification call *)
Definition classification_reply (self : processor index) (question : str)
  : result str :=
  llm_ainvoke sv (history self) (classification_prompt question).

Definition after_classification (self : processor index) (question : str)
  : processor index :=
  logged self (LlmInvoke (classification_prompt question)).

(** the reply to the search with [k = 3], made when an index exists *)
Definition retrieval_reply (self : processor index) (store : index)
           (question : str) : result (list Document) :=
  similarity_search sv (history (after_classification self question))
                    store question 3.

(** what [_get_relevant_context] returns after the classification *)
Definition relevant_context_of (self : processor index) (question : str) : str :=
  match vectorstore self with
  | None => no_knowledge_base
  | Some store =>
      match retrieval_reply self store question with
      | Ok docs => join (newline ++ newline) (List.map page_content docs)
      | Raise _ => retrieval_error
      end
  end.

Definition after_retrieval (self : processor index) (question : str)
  : processor index :=
  match vectorstore self with
  | None => after_classification self question
  | Some _ =>
      logged (after_classification self question) (SimilaritySearch question 3)
  end.

(** the prompt of the answer chain *)
Definition answer_prompt (self : processor index) (question context : str) : str :=
  faq_prompt question
             (full_context context (relevant_context_of self question))
             _get_business_info.

(** the reply of the completion service to the answer chain *)
Definition answer_reply (self : processor index) (question context : str)
  : result str :=
  llm_ainvoke sv (history (after_retrieval self question))
              (answer_prompt self question context).

Definition after_answer (self : processor index) (question context : str)
  : processor index :=
  logged (after_retrieval self question)
         (LlmInvoke (answer_prompt self question context)).

(** the reply to the search with [k = 5], made when an index exists and
    the answer chain has returned *)
Definition related_reply (self : processor index) (store : index)
           (question context : str) : result (list Document) :=
  similarity_search sv (history (after_answer self question context))
                    store question 5.

(** what [_get_related_questions] returns after the answer chain *)
Definition related_questions_of (self : processor index)
           (question context : str) : list str :=
  match vectorstore self with
  | None => []
  | Some store =>
      match related_reply self store question context with
      | Ok docs => firstn 3 (scan_docs docs [])
      | Raise _ => []
      end
  end.

Definition after_related (self : processor index) (question context : str)
  : processor index :=
  match vectorstore self with
  | None => after_answer self question context
  | Some _ =>
      logged (after_answer self question context) (SimilaritySearch question 5)
  end.

End Replies.
End Replies.
Import Replies.

(* ================================================================= *)
(** ** Concrete collaborators and inputs *)

Module Scenario.

Definition timeout : exn := Exception (lit "request timed out").

Definition chunk : Document :=
  {| page_content :=
       lit "Q: What are your business hours? A: Monday through Friday, 9 AM to 5 PM. Can I visit on Sunday? No. Ok? Do you ship abroad? Where is the shop located? Call us";
     metadata_source := faq_file |}.

(** every collaborator answers *)
Definition healthy : services unit :=
  {| llm_ainvoke := fun _ _ => Ok (lit " We are open on weekdays. ");
     similarity_search := fun _ _ _ _ => Ok [chunk];
     os_makedirs := fun _ _ => Ok tt;
     os_path_exists := fun _ _ => true;
     text_loader_load := fun _ _ => Ok [chunk];
     split_documents := fun _ _ _ documents => Ok documents;
     faiss_from_documents := fun _ _ => Ok tt;
     append_text := fun _ _ _ => Ok tt;
     str_lower := fun s => s |}.

(** the completion service raises on every call *)
Definition completion_down : services unit :=
  {| llm_ainvoke := fun _ _ => Raise timeout;
     similarity_search := similarity_search healthy;
     os_makedirs := os_makedirs healthy;
     os_path_exists := os_path_exists healthy;
     text_loader_load := text_loader_load healthy;
     split_documents := split_documents healthy;
     faiss_from_documents := faiss_from_documents healthy;
     append_text := append_text healthy;
     str_lower := str_lower healthy |}.

(** the completion service raises on the first call made to it only *)
Definition first_call_fails : services unit :=
  {| llm_ainvoke := fun h _ =>
       match h with
       | [] => Raise timeout
       | _ :: _ => Ok (lit " We are open on weekdays. ")
       end;
     similarity_search := similarity_search healthy;
     os_makedirs := os_makedirs healthy;
     os_path_exists := os_path_exists healthy;
     text_loader_load := text_loader_load healthy;
     split_documents := split_documents healthy;
     faiss_from_documents := faiss_from_documents healthy;
     append_text := append_text healthy;
     str_lower := str_lower healthy |}.

(** writing to the FAQ file raises *)
Definition disk_full : services unit :=
  {| llm_ainvoke := llm_ainvoke healthy;
     similarity_search := similarity_search healthy;
     os_makedirs := os_makedirs healthy;
     os_path_exists := os_path_exists healthy;
     text_loader_load := text_loader_load healthy;
     split_documents := split_documents healthy;
     faiss_from_documents := faiss_from_documents healthy;
     append_text := fun _ _ _ => Raise (Exception (lit "No space left on device"));
     str_lower := str_lower healthy |}.

(** the embedding service behind [FAISS.from_documents] raises *)
Definition embeddings_down : services unit :=
  {| llm_ainvoke := llm_ainvoke healthy;
     similarity_search := similarity_search healthy;
     os_makedirs := os_makedirs healthy;
     os_path_exists := os_path_exists healthy;
     text_loader_load := text_loader_load healthy;
     split_documents := split_documents healthy;
     faiss_from_documents := fun _ _ => Raise timeout;
     append_text := append_text healthy;
     str_lower := str_lower healthy |}.

(** the vector store raises on every search *)
Definition search_down : services unit :=
  {| llm_ainvoke := llm_ainvoke healthy;
     similarity_search := fun _ _ _ _ => Raise timeout;
     os_makedirs := os_makedirs healthy;
     os_path_exists := os_path_exists healthy;
     text_loader_load := text_loader_load healthy;
     split_documents := split_documents healthy;
     faiss_from_documents := faiss_from_documents healthy;
     append_text := append_text healthy;
     str_lower := str_lower healthy |}.

(** both the vector store and the completion service raise *)
Definition search_and_completion_down : services unit :=
  {| llm_ainvoke := fun _ _ => Raise timeout;
     similarity_search := fun _ _ _ _ => Raise timeout;
     os_makedirs := os_makedirs healthy;
     os_path_exists := os_path_exists healthy;
     text_loader_load := text_loader_load healthy;
     split_documents := split_documents healthy;
     faiss_from_documents := faiss_from_documents healthy;
     append_text := append_text healthy;
     str_lower := str_lower healthy |}.

Definition without_index : processor unit :=
  {| vectorstore := None; history := [] |}.

Definition with_index : processor unit :=
  {| vectorstore := Some tt; history := [] |}.

(** questions of five and of fifteen words, contexts of two and of
    eleven words *)
Definition short_question : str := lit "When are you open today".
Definition long_question : str :=
  lit "Could you please tell me at what time the shop opens on a public holiday".
Definition small_context : str := lit "Opening hours".
Definition large_context : str :=
  lit "We are open Monday through Friday, 9 AM to 5 PM.".

End Scenario.

(* ================================================================= *)
(** ** The rest of [FAQProcessor]: construction and statistics *)

Module Rest.

(** Collaborators of the constructor and of the statistics.  They see
    the calls made so far and are not recorded among them. *)
Record clients (index : Type) : Type := {
  (** [OpenAI(temperature=0.3)] *)
  openai_new : list call -> result unit;
  (** [OpenAIEmbeddings()] *)
  openai_embeddings_new : list call -> result unit;
  (** [self.vectorstore.index.ntotal]: [Ok None] when [hasattr] says
      that the index has no such attribute, [Raise] when reaching the
      index raises *)
  index_ntotal : list call -> index -> result (option Z);
  (** [datetime.now().isoformat()] *)
  now_isoformat : list call -> str
}.
Arguments openai_new {index} _ _.
Arguments openai_embeddings_new {index} _ _.
Arguments index_ntotal {index} _ _ _.
Arguments now_isoformat {index} _ _.

(** the dictionary that [get_knowledge_base_stats] returns;
    [last_updated] is [None] where the key is absent *)
Record KnowledgeBaseStats : Type := {
  status : str;
  documents : Z;
  last_updated : option str
}.

Definition empty : str := lit "empty".
Definition loaded : str := lit "loaded".

Section Rest.
Context {index : Type} (sv : services index) (cl : clients index).
Local Abbreviation method := (@M index).

(** a call to one of the [clients] *)
Definition unrecorded {A : Type} (reply : list call -> result A) : method A :=
  fun self => (reply (history self), self).

(** [setup_prompts] builds the two templates of [FAQ] from constants
    and calls no collaborator *)
Definition __init__ : method unit :=
  unrecorded (openai_new cl) ;;;
  unrecorded (openai_embeddings_new cl) ;;;
  set_vectorstore None ;;;
  load_knowledge_base sv.

(** [FAQProcessor()]: a new object, initialised; no object when
    [__init__] raises.  [calls] are the calls made before. *)
Definition FAQProcessor (calls : list call) : result (processor index) :=
  match __init__ {| vectorstore := None; history := calls |} with
  | (Ok _, self) => Ok self
  | (Raise e, _) => Raise e
  end.

Definition get_knowledge_base_stats : method KnowledgeBaseStats :=
  try_except
    (store <- get_vectorstore ;;
     match store with
     | None =>
         ret {| status := empty; documents := 0; last_updated := None |}
     | Some store =>
         ntotal <- unrecorded (fun h => index_ntotal cl h store) ;;
         let doc_count := match ntotal with Some n => n | None => 0 end in
         now <- unrecorded (fun h => Ok (now_isoformat cl h)) ;;
         ret {| status := loaded;
                documents := doc_count;
                last_updated := Some now |}
     end)
    (fun _ => ret {| status := error; documents := 0; last_updated := None |}).

End Rest.

End Rest.

(* ================================================================= *)
(** ** The endpoint [/faq/answer] of [main.py] *)

Module Main.

Inductive http_exception : Type :=
| HTTPException (status_code : Z) (detail : str).

Record FAQRequest : Type := { question : str; context : str }.

(** the dictionary that the endpoint returns *)
Record answer_payload : Type := {
  payload_status : str;
  payload_answer : FAQResponse
}.

(** [str(e)] *)
Definition exn_str (e : exn) : str :=
  match e with Exception message => message end.

Section Main.
Context {index : Type} (sv : services index).

(** [faq_processor] is the global of the module: [None] until the
    start-up has built the processor.  The endpoint returns its payload
    or raises, and leaves the global as the call made it. *)
Definition answer_question (faq_processor : option (processor index))
           (request : FAQRequest)
  : (http_exception + answer_payload) * option (processor index) :=
  match faq_processor with
  | None =>
      (inl (HTTPException 500 (lit "FAQ processor not initialized")), None)
  | Some self =>
      match FAQ.answer_question sv (question request) (context request) self with
      | (Ok answer, self') =>
          (inr {| payload_status := lit "success"; payload_answer := answer |},
           Some self')
      | (Raise e, self') =>
          (inl (HTTPException 500 (exn_str e)), Some self')
      end
  end.

End Main.

End Main.

(* ================================================================= *)
(** ** [generate_call_response] of [voice_agent.py] *)

Module Voice.
Section Voice.
Context {index audio : Type} (sv : services index) (cl : Rest.clients index).

(** [synthesize_speech] is the text-to-speech request of the agent: it
    returns the audio or raises.  [generate_call_response] builds a
    processor of its own for every call, asks it, and has the answer
    spoken; its handler logs and raises again what was raised.  The
    module of the processor is taken to be importable. *)
Definition generate_call_response
           (synthesize_speech : list call -> str -> result audio)
           (calls : list call) (transcription context : str) : result audio :=
  match Rest.FAQProcessor sv cl calls with
  | Raise e => Raise e
  | Ok faq_processor =>
      match FAQ.answer_question sv transcription context faq_processor with
      | (Ok ai_response, faq_processor') =>
          synthesize_speech (history faq_processor') (answer ai_response)
      | (Raise e, _) => Raise e
      end
  end.

End Voice.
End Voice.

(* ================================================================= *)
(** ** Observations on the call log and on strings *)

Module Observe.

(** the paths probed with [os.path.exists], oldest first *)
Definition probes (calls : list call) : list str :=
  flat_map (fun c => match c with PathExists path => [path] | _ => [] end) calls.

(** the prompts sent to the completion service, oldest first *)
Definition prompts (calls : list call) : list str :=
  flat_map (fun c => match c with LlmInvoke prompt => [prompt] | _ => [] end) calls.

(** the values of [k] of the searches, oldest first *)
Definition searches (calls : list call) : list Z :=
  flat_map (fun c => match c with SimilaritySearch _ k => [k] | _ => [] end) calls.

(** [s] neither starts nor ends with white space *)
Definition is_stripped (s : str) : bool :=
  match s with
  | [] => true
  | c :: rest => negb (isspace c) && negb (isspace (List.last rest c))
  end.

(** the integer nearest to a hundred times a positive float *)
Definition hundredths (x : float) : Z :=
  match x with
  | S754_finite false m e =>
      round_half_even (Zpos m * 100 * 2 ^ Z.max e 0) (2 ^ Z.max (- e) 0)
  | _ => 0
  end.

(** clients that answer *)
Definition ready : Rest.clients unit :=
  {| Rest.openai_new := fun _ => Ok tt;
     Rest.openai_embeddings_new := fun _ => Ok tt;
     Rest.index_ntotal := fun _ _ => Ok (Some 1);
     Rest.now_isoformat := fun _ => lit "2024-01-01T00:00:00" |}.

(** no API key: the constructor of the completion client raises *)
Definition unconfigured : Rest.clients unit :=
  {| Rest.openai_new := fun _ => Raise (Exception (lit "Did not find openai_api_key"));
     Rest.openai_embeddings_new := fun _ => Ok tt;
     Rest.index_ntotal := fun _ _ => Ok (Some 1);
     Rest.now_isoformat := fun _ => lit "2024-01-01T00:00:00" |}.

(** no knowledge base file exists *)
Definition no_files : services unit :=
  {| llm_ainvoke := llm_ainvoke Scenario.healthy;
     similarity_search := similarity_search Scenario.healthy;
     os_makedirs := os_makedirs Scenario.healthy;
     os_path_exists := fun _ _ => false;
     text_loader_load := text_loader_load Scenario.healthy;
     split_documents := split_documents Scenario.healthy;
     faiss_from_documents := faiss_from_documents Scenario.healthy;
     append_text := append_text Scenario.healthy;
     str_lower := str_lower Scenario.healthy |}.


(** a chunk with one question sentence, returned twice by the search *)
Definition one_question : Document :=
  {| page_content := lit "Opening hours. Are you open on Sunday? No";
     metadata_source := faq_file |}.

Definition same_chunk_twice : services unit :=
  {| llm_ainvoke := llm_ainvoke Scenario.healthy;
     similarity_search := fun _ _ _ _ => Ok [one_question; one_question];
     os_makedirs := os_makedirs Scenario.healthy;
     os_path_exists := os_path_exists Scenario.healthy;
     text_loader_load := text_loader_load Scenario.healthy;
     split_documents := split_documents Scenario.healthy;
     faiss_from_documents := faiss_from_documents Scenario.healthy;
     append_text := append_text Scenario.healthy;
     str_lower := str_lower Scenario.healthy |}.

(** the completion service replies with white space only *)
Definition blank_reply : services unit :=
  {| llm_ainvoke := fun _ _ => Ok (lit "   ");
     similarity_search := similarity_search Scenario.healthy;
     os_makedirs := os_makedirs Scenario.healthy;
     os_path_exists := os_path_exists Scenario.healthy;
     text_loader_load := text_loader_load Scenario.healthy;
     split_documents := split_documents Scenario.healthy;
     faiss_from_documents := faiss_from_documents Scenario.healthy;
     append_text := append_text Scenario.healthy;
     str_lower := str_lower Scenario.healthy |}.

End Observe.

(* ================================================================= *)
(** * Facts *)

(** ** Rounding in binary64 never crosses a representable number *)

Module FloatFacts.

(** *** The order on dyadic numbers, at any common exponent *)

Lemma dle_base b m1 e1 m2 e2 :
  b <= e1 -> b <= e2 ->
  (dle m1 e1 m2 e2 <-> m1 * 2 ^ (e1 - b) <= m2 * 2 ^ (e2 - b)).
Proof.
  intros H1 H2. unfold dle.
  set (c := Z.min e1 e2).
  assert (Hc : b <= c) by (unfold c; lia).
  assert (Hc1 : c <= e1) by (unfold c; lia).
  assert (Hc2 : c <= e2) by (unfold c; lia).
  replace (e1 - b) with ((e1 - c) + (c - b)) by lia.
  replace (e2 - b) with ((e2 - c) + (c - b)) by lia.
  rewrite !Z.pow_add_r by lia.
  rewrite !Z.mul_assoc.
  assert (0 < 2 ^ (c - b)) by (apply Z.pow_pos_nonneg; lia).
  split; intro H0.
  - apply Z.mul_le_mono_nonneg_r; lia.
  - apply Z.mul_le_mono_pos_r in H0; lia.
Qed.

(** *** Binary digits *)

Lemma digits2_pos_bounds p :
  2 ^ (Zpos (digits2_pos p) - 1) <= Zpos p < 2 ^ Zpos (digits2_pos p).
Proof.
  induction p as [p IH | p IH | ]; cbn [digits2_pos].
  - rewrite Pos2Z.inj_succ.
    replace (Z.succ (Zpos (digits2_pos p)) - 1) with (Z.succ (Zpos (digits2_pos p) - 1)) by lia.
    rewrite !Z.pow_succ_r by lia. lia.
  - rewrite Pos2Z.inj_succ.
    replace (Z.succ (Zpos (digits2_pos p)) - 1) with (Z.succ (Zpos (digits2_pos p) - 1)) by lia.
    rewrite !Z.pow_succ_r by lia. lia.
  - cbn. lia.
Qed.

Lemma Zdigits2_bounds m :
  0 < m -> 2 ^ (Zdigits2 m - 1) <= m < 2 ^ Zdigits2 m.
Proof.
  destruct m as [ | p | p]; try lia. intros _. apply digits2_pos_bounds.
Qed.

Lemma Zdigits2_pos m : 0 < m -> 0 < Zdigits2 m.
Proof. destruct m; cbn; lia. Qed.

Lemma Zdigits2_nonneg m : 0 <= Zdigits2 m.
Proof. destruct m; cbn; lia. Qed.

Lemma Zdigits2_gt m k : 0 <= k -> 2 ^ k <= m -> k < Zdigits2 m.
Proof.
  intros Hk Hm.
  assert (0 < m) by (pose proof (Z.pow_pos_nonneg 2 k); lia).
  destruct (Zdigits2_bounds m H) as [_ Hu].
  apply (Z.pow_lt_mono_r_iff 2); try lia.
  pose proof (Zdigits2_nonneg m). lia.
Qed.

Lemma Zdigits2_le m k : 0 <= k -> 0 <= m -> m < 2 ^ k -> Zdigits2 m <= k.
Proof.
  intros Hk Hm0 Hm.
  destruct (Z.eq_dec m 0) as [-> | Hne]; [cbn; lia | ].
  destruct (Zdigits2_bounds m ltac:(lia)) as [Hl _].
  pose proof (Zdigits2_pos m ltac:(lia)).
  assert (Zdigits2 m - 1 < k); [ | lia].
  apply (Z.pow_lt_mono_r_iff 2); lia.
Qed.

Lemma Zdigits2_unique m d :
  2 ^ (d - 1) <= m < 2 ^ d -> 0 < d -> Zdigits2 m = d.
Proof.
  intros [Hl Hu] Hd.
  assert (0 < m) by (pose proof (Z.pow_pos_nonneg 2 (d - 1)); lia).
  pose proof (Zdigits2_gt m (d - 1) ltac:(lia) Hl).
  pose proof (Zdigits2_le m d ltac:(lia) ltac:(lia) Hu). lia.
Qed.

Lemma Zdigits2_mono a b : 0 <= a <= b -> Zdigits2 a <= Zdigits2 b.
Proof.
  intros [Ha Hab].
  destruct (Z.eq_dec a 0) as [-> | Hne]; [apply Zdigits2_nonneg | ].
  destruct (Zdigits2_bounds a ltac:(lia)) as [Hl _].
  pose proof (Zdigits2_pos a ltac:(lia)).
  pose proof (Zdigits2_gt b (Zdigits2 a - 1) ltac:(lia) ltac:(lia)). lia.
Qed.

Lemma Zdigits2_div_pow m k :
  0 < m -> 0 <= k -> k < Zdigits2 m -> Zdigits2 (m / 2 ^ k) = Zdigits2 m - k.
Proof.
  intros Hm Hk Hlt.
  destruct (Zdigits2_bounds m Hm) as [Hl Hu].
  assert (Hp : 0 < 2 ^ k) by (apply Z.pow_pos_nonneg; lia).
  apply Zdigits2_unique; [ | lia].
  split.
  - apply Z.div_le_lower_bound; [lia | ].
    rewrite <- Z.pow_add_r by lia.
    replace (k + (Zdigits2 m - k - 1)) with (Zdigits2 m - 1) by lia. exact Hl.
  - apply Z.div_lt_upper_bound; [lia | ].
    rewrite <- Z.pow_add_r by lia.
    replace (k + (Zdigits2 m - k)) with (Zdigits2 m) by lia. exact Hu.
Qed.

Lemma Zdigits2_mul_pow m k :
  0 < m -> 0 <= k -> Zdigits2 (m * 2 ^ k) = Zdigits2 m + k.
Proof.
  intros Hm Hk.
  destruct (Zdigits2_bounds m Hm) as [Hl Hu].
  pose proof (Zdigits2_pos m Hm).
  assert (Hp : 0 < 2 ^ k) by (apply Z.pow_pos_nonneg; lia).
  apply Zdigits2_unique; [ | lia].
  replace (Zdigits2 m + k - 1) with ((Zdigits2 m - 1) + k) by lia.
  rewrite !Z.pow_add_r by lia. nia.
Qed.

(** *** Shifts to the right *)

Lemma shr_1_m mrs : 0 <= shr_m mrs -> shr_m (shr_1 mrs) = shr_m mrs / 2.
Proof.
  destruct mrs as [m r s]. cbn [shr_m]. intros Hm.
  rewrite <- Z.div2_div.
  destruct m as [ | [p | p | ] | p]; try lia; reflexivity.
Qed.

Lemma pow2_xO p : 2 ^ Zpos p~0 = 2 ^ Zpos p * 2 ^ Zpos p.
Proof. rewrite <- Z.pow_add_r by lia. f_equal. lia. Qed.

Lemma pow2_xI p : 2 ^ Zpos p~1 = 2 * (2 ^ Zpos p * 2 ^ Zpos p).
Proof.
  rewrite <- Z.pow_add_r, <- Z.pow_succ_r by lia. f_equal. lia.
Qed.

Lemma iter_pos_shr_1_m p : forall mrs,
  0 <= shr_m mrs -> shr_m (iter_pos shr_1 p mrs) = shr_m mrs / 2 ^ Zpos p.
Proof.
  induction p as [p IH | p IH | ]; intros mrs Hm; cbn [iter_pos].
  - assert (H1 : 0 <= shr_m (shr_1 mrs)).
    { rewrite shr_1_m by assumption. apply Z.div_pos; lia. }
    assert (Hp : 0 < 2 ^ Zpos p) by (apply Z.pow_pos_nonneg; lia).
    assert (H2 : 0 <= shr_m (iter_pos shr_1 p (shr_1 mrs))).
    { rewrite IH by assumption. apply Z.div_pos; lia. }
    rewrite IH, IH, shr_1_m by assumption.
    rewrite !Z.div_div by lia.
    rewrite pow2_xI, Z.mul_assoc. reflexivity.
  - assert (Hp : 0 < 2 ^ Zpos p) by (apply Z.pow_pos_nonneg; lia).
    assert (H2 : 0 <= shr_m (iter_pos shr_1 p mrs)).
    { rewrite IH by assumption. apply Z.div_pos; lia. }
    rewrite IH, IH by assumption.
    rewrite !Z.div_div by lia.
    rewrite pow2_xO. reflexivity.
  - rewrite shr_1_m by assumption. reflexivity.
Qed.

Lemma shr_m_of_loc m l : shr_m (shr_record_of_loc m l) = m.
Proof. destruct l as [ | [ | | ]]; reflexivity. Qed.

(** the truncating shift of [shr_fexp] *)
Lemma shr_fexp_m m e l :
  0 <= m ->
  let e' := fexp prec emax (Zdigits2 m + e) in
  e <= e' ->
  snd (shr_fexp prec emax m e l) = e' /\
  shr_m (fst (shr_fexp prec emax m e l)) = m / 2 ^ (e' - e).
Proof.
  intros Hm e' He. unfold shr_fexp. fold e'.
  unfold shr.
  destruct (e' - e) as [ | p | p] eqn:Hk; try lia; cbn [fst snd].
  - rewrite shr_m_of_loc, Z.pow_0_r, Z.div_1_r. split; lia.
  - rewrite iter_pos_shr_1_m by (rewrite shr_m_of_loc; lia).
    rewrite shr_m_of_loc. split; [lia | reflexivity].
Qed.

Lemma round_nearest_even_bounds m l :
  m <= round_nearest_even m l <= m + 1.
Proof.
  unfold round_nearest_even.
  destruct l as [ | [ | | ]]; try lia. destruct (Z.even m); lia.
Qed.

(** *** The two stages of [binary_round_aux] *)

Lemma fexp64_spec e : fexp prec emax e = Z.max (e - 53) (-1074).
Proof. reflexivity. Qed.

Lemma pow2_pos k : 0 <= k -> 0 < 2 ^ k.
Proof. intros; apply Z.pow_pos_nonneg; lia. Qed.

Lemma pow2_split a b : 0 <= a -> 0 <= b -> 2 ^ (a + b) = 2 ^ a * 2 ^ b.
Proof. intros; apply Z.pow_add_r; lia. Qed.

(** first stage of [binary_round_aux]: truncation to the target exponent *)
Lemma truncate_lower mx ex rm re :
  0 < mx -> ex <= fexp prec emax (Zdigits2 mx + ex) ->
  0 < rm -> Zdigits2 rm <= 53 -> -1074 <= re ->
  dle rm re mx ex ->
  let e1 := fexp prec emax (Zdigits2 mx + ex) in
  let m1 := mx / 2 ^ (e1 - ex) in
  0 < m1 /\ Zdigits2 m1 + e1 = Zdigits2 mx + ex /\ dle rm re m1 e1.
Proof.
  intros Hmx Hex Hrm Hrd Hre Hle e1 m1.
  pose proof (fexp64_spec (Zdigits2 mx + ex)) as He1. fold e1 in He1, Hex.
  set (k := e1 - ex) in *.
  assert (Hk : 0 <= k) by (unfold k; lia).
  pose proof (pow2_pos k Hk) as Hpk.
  pose proof (Zdigits2_pos mx Hmx) as Hdx.
  destruct (Zdigits2_bounds rm Hrm) as [_ Hrmu].
  assert (Hrm53 : rm < 2 ^ 53).
  { eapply Z.lt_le_trans; [exact Hrmu | ].
    apply Z.pow_le_mono_r; [lia | exact Hrd]. }
  destruct (Z_le_gt_dec e1 re) as [Hcase | Hcase].
  - (* the bound is a multiple of the target unit *)
    apply (proj1 (dle_base ex rm re mx ex ltac:(lia) ltac:(lia))) in Hle.
    rewrite Z.sub_diag, Z.pow_0_r, Z.mul_1_r in Hle.
    replace (re - ex) with ((re - e1) + k) in Hle by (unfold k; lia).
    rewrite pow2_split in Hle by lia.
    pose proof (pow2_pos (re - e1) ltac:(lia)) as Hpr.
    assert (HR : rm * 2 ^ (re - e1) <= m1).
    { unfold m1. apply Z.div_le_lower_bound; lia. }
    assert (Hm1 : 0 < m1) by nia.
    assert (Hklt : k < Zdigits2 mx).
    { apply Zdigits2_gt; [lia | ].
      assert (2 ^ k * 1 <= 2 ^ k * m1) by (apply Z.mul_le_mono_nonneg_l; lia).
      pose proof (Z.mul_div_le mx (2 ^ k) Hpk). fold m1 in H0. lia. }
    split; [exact Hm1 | ]. split.
    + unfold m1. rewrite Zdigits2_div_pow by lia. unfold k. lia.
    + apply (proj2 (dle_base e1 rm re m1 e1 ltac:(lia) ltac:(lia))).
      rewrite Z.sub_diag, Z.pow_0_r, Z.mul_1_r. exact HR.
  - (* the result is normal and above the binade of the bound *)
    assert (Hklt : k < Zdigits2 mx) by (unfold k; lia).
    assert (Hd1 : Zdigits2 m1 = 53).
    { unfold m1. rewrite Zdigits2_div_pow by lia. unfold k. lia. }
    assert (Hm1 : 0 < m1).
    { destruct (Z.eq_dec m1 0) as [E | E]; [rewrite E in Hd1; discriminate | ].
      assert (0 <= m1) by (apply Z.div_pos; lia). lia. }
    split; [exact Hm1 | ]. split.
    + unfold k in *. lia.
    + apply (proj2 (dle_base re rm re m1 e1 ltac:(lia) ltac:(lia))).
      rewrite Z.sub_diag, Z.pow_0_r, Z.mul_1_r.
      destruct (Zdigits2_bounds m1 Hm1) as [Hl _]. rewrite Hd1 in Hl.
      assert (2 ^ 1 <= 2 ^ (e1 - re)) by (apply Z.pow_le_mono_r; lia).
      change (2 ^ (53 - 1)) with 4503599627370496 in Hl.
      change (2 ^ 53) with 9007199254740992 in Hrm53.
      change (2 ^ 1) with 2 in H. nia.
Qed.

(** second stage: renormalisation after the increment *)
Lemma renormalise m1 e1 m2 :
  0 < m1 -> fexp prec emax (Zdigits2 m1 + e1) = e1 ->
  m1 <= m2 <= m1 + 1 ->
  let e2 := fexp prec emax (Zdigits2 m2 + e1) in
  let m3 := m2 / 2 ^ (e2 - e1) in
  e1 <= e2 /\ 0 < m3 /\ m2 = m3 * 2 ^ (e2 - e1) /\
  fexp prec emax (Zdigits2 m3 + e2) = e2 /\
  Zdigits2 m3 + e2 <= Zdigits2 m1 + e1 + 1.
Proof.
  intros Hm1 Hc Hm2 e2 m3.
  pose proof (fexp64_spec (Zdigits2 m1 + e1)) as E1. rewrite Hc in E1.
  pose proof (fexp64_spec (Zdigits2 m2 + e1)) as E2. fold e2 in E2.
  destruct (Zdigits2_bounds m1 Hm1) as [Hl1 Hu1].
  pose proof (Zdigits2_pos m1 Hm1) as Hd1.
  assert (Hmono : Zdigits2 m1 <= Zdigits2 m2) by (apply Zdigits2_mono; lia).
  assert (Hup : Zdigits2 m2 <= Zdigits2 m1 + 1).
  { apply Zdigits2_le; [lia | lia | ].
    rewrite pow2_split by lia. change (2 ^ 1) with 2. lia. }
  destruct (Z.eq_dec e2 e1) as [Heq | Hne].
  - unfold m3. rewrite Heq, Z.sub_diag, Z.pow_0_r, Z.div_1_r, Z.mul_1_r.
    repeat split; lia.
  - assert (Hk : e2 = e1 + 1) by lia.
    assert (Hd2 : Zdigits2 m2 = Zdigits2 m1 + 1) by lia.
    assert (Hm2eq : m2 = 2 ^ Zdigits2 m1).
    { destruct (Zdigits2_bounds m2 ltac:(lia)) as [Hl2 _].
      rewrite Hd2 in Hl2. replace (Zdigits2 m1 + 1 - 1) with (Zdigits2 m1) in Hl2 by lia.
      lia. }
    assert (Hm3 : m3 = 2 ^ (Zdigits2 m1 - 1)).
    { unfold m3. rewrite Hk. replace (e1 + 1 - e1) with 1 by lia.
      rewrite Hm2eq. change (2 ^ 1) with 2.
      replace (Zdigits2 m1) with (Z.succ (Zdigits2 m1 - 1)) at 1 by lia.
      rewrite Z.pow_succ_r by lia.
      rewrite Z.mul_comm, Z.div_mul by lia. reflexivity. }
    pose proof (pow2_pos (Zdigits2 m1 - 1) ltac:(lia)) as Hp.
    split; [lia | ]. split; [lia | ]. split.
    + rewrite Hm3, Hm2eq, Hk. replace (e1 + 1 - e1) with 1 by lia.
      change (2 ^ 1) with 2.
      replace (Zdigits2 m1) with (Z.succ (Zdigits2 m1 - 1)) at 1 by lia.
      rewrite Z.pow_succ_r by lia. lia.
    + assert (Hd3 : Zdigits2 m3 = Zdigits2 m1).
      { rewrite Hm3. apply Zdigits2_unique; [ | lia].
        split; [lia | ]. apply Z.pow_lt_mono_r; lia. }
      split; [rewrite Hd3, fexp64_spec; lia | lia].
Qed.

Lemma dle_trans_mantissa rm re m1 e1 m3 e2 :
  e1 <= e2 -> 0 <= m1 -> m1 <= m3 * 2 ^ (e2 - e1) ->
  dle rm re m1 e1 -> dle rm re m3 e2.
Proof.
  intros He Hm1 Hm Hle.
  set (b := Z.min re e1).
  assert (Hb1 : b <= re) by (unfold b; lia).
  assert (Hb2 : b <= e1) by (unfold b; lia).
  apply (proj1 (dle_base b _ _ _ _ Hb1 Hb2)) in Hle.
  apply (proj2 (dle_base b rm re m3 e2 Hb1 ltac:(lia))).
  replace (e2 - b) with ((e2 - e1) + (e1 - b)) by lia.
  rewrite pow2_split by (unfold b; lia).
  pose proof (pow2_pos (e1 - b) ltac:(unfold b; lia)) as Hp.
  apply (Z.mul_le_mono_nonneg_r _ _ (2 ^ (e1 - b))) in Hm; [ | lia].
  rewrite Z.mul_assoc. lia.
Qed.

(** [binary_round_aux] never rounds below a representable number that
    the exact value dominates, and does not overflow below [2^1023]. *)
Lemma binary_round_aux_bounds mx ex lx rm re :
  0 < mx -> ex <= fexp prec emax (Zdigits2 mx + ex) ->
  0 < rm -> Zdigits2 rm <= 53 -> -1074 <= re ->
  dle rm re mx ex ->
  ge_bound rm re (binary_round_aux prec emax false mx ex lx) /\
  (Zdigits2 mx + ex <= 1023 ->
   binary_round_aux prec emax false mx ex lx <> S754_infinity false).
Proof.
  intros Hmx Hex Hrm Hrd Hre Hle.
  destruct (truncate_lower mx ex rm re Hmx Hex Hrm Hrd Hre Hle) as (Hm1 & Hd1 & Hle1).
  destruct (shr_fexp_m mx ex lx ltac:(lia) Hex) as [Hs1 Hs2].
  unfold binary_round_aux.
  destruct (shr_fexp prec emax mx ex lx) as [mrs' e'].
  cbn [fst snd] in Hs1, Hs2. subst e'.
  set (e1 := fexp prec emax (Zdigits2 mx + ex)) in *.
  set (m1 := mx / 2 ^ (e1 - ex)) in *.
  rewrite Hs2.
  pose proof (round_nearest_even_bounds m1 (loc_of_shr_record mrs')) as Hrnd.
  set (m2 := round_nearest_even m1 (loc_of_shr_record mrs')) in *.
  assert (Hc1 : fexp prec emax (Zdigits2 m1 + e1) = e1) by (rewrite Hd1; reflexivity).
  destruct (renormalise m1 e1 m2 Hm1 Hc1 Hrnd) as (He12 & Hm3 & Hm23 & Hc3 & Hmag).
  destruct (shr_fexp_m m2 e1 loc_Exact ltac:(lia) He12) as [Ht1 Ht2].
  destruct (shr_fexp prec emax m2 e1 loc_Exact) as [mrs'' e''].
  cbn [fst snd] in Ht1, Ht2. subst e''.
  set (e2 := fexp prec emax (Zdigits2 m2 + e1)) in *.
  set (m3 := m2 / 2 ^ (e2 - e1)) in *.
  rewrite Ht2.
  destruct m3 as [ | p | p] eqn:Ep; try lia.
  destruct (e2 <=? emax - prec) eqn:Hov.
  - split; [right | intros _; discriminate].
    exists p, e2. split; [reflexivity | ]. split.
    + unfold bounded, canonical_mantissa.
      change (Zpos (digits2_pos p)) with (Zdigits2 (Zpos p)).
      rewrite Hc3, Z.eqb_refl, Hov. reflexivity.
    + apply (dle_trans_mantissa rm re m1 e1); try lia. exact Hle1.
  - split; [left; reflexivity | ].
    intros Hsmall. exfalso. apply Z.leb_gt in Hov.
    rewrite fexp64_spec in Hc3. unfold emax, prec in Hov. lia.
Qed.

Lemma binary_round_aux_lower mx ex lx rm re :
  0 < mx -> ex <= fexp prec emax (Zdigits2 mx + ex) ->
  0 < rm -> Zdigits2 rm <= 53 -> -1074 <= re ->
  dle rm re mx ex ->
  ge_bound rm re (binary_round_aux prec emax false mx ex lx).
Proof.
  intros Hmx Hex Hrm Hrd Hre Hle.
  apply (binary_round_aux_bounds mx ex lx rm re); assumption.
Qed.

(** *** Division, multiplication, addition and comparison *)

Lemma iter_xO m d : Zpos (Pos.iter xO m d) = Zpos m * 2 ^ Zpos d.
Proof.
  induction d as [ | d IH] using Pos.peano_ind.
  - cbn. lia.
  - rewrite Pos.iter_succ, Pos2Z.inj_xO, IH, Pos2Z.inj_succ, Z.pow_succ_r by lia. lia.
Qed.

Lemma shl_align_spec mx ex ex' :
  snd (shl_align mx ex ex') = Z.min ex ex' /\
  Zpos (fst (shl_align mx ex ex')) = Zpos mx * 2 ^ (ex - Z.min ex ex').
Proof.
  unfold shl_align.
  destruct (ex' - ex) as [ | d | d] eqn:Hd; cbn [fst snd].
  - replace (Z.min ex ex') with ex by lia. rewrite Z.sub_diag. cbn. lia.
  - replace (Z.min ex ex') with ex by lia. rewrite Z.sub_diag. cbn. lia.
  - replace (Z.min ex ex') with ex' by lia. split; [reflexivity | ].
    rewrite iter_xO. f_equal. f_equal. lia.
Qed.

Lemma shift_case m s :
  0 <= s ->
  match s with
  | Z0 => m | Zpos _ => Z.shiftl m s | Zneg _ => 0
  end = m * 2 ^ s.
Proof.
  intros Hs. destruct s as [ | ps | ps]; try lia.
  rewrite Z.shiftl_mul_pow2 by lia. reflexivity.
Qed.

(** a quotient of integers [a >= b > 0] is at least one, and finite
    when [a] is below [2^1023] *)
Lemma int_truediv_bounds a b :
  0 < b -> b <= a ->
  ge_bound (2 ^ 52) (-52) (int_truediv a b) /\
  (a < 2 ^ 1023 -> int_truediv a b <> S754_infinity false).
Proof.
  intros Hb Hab.
  destruct a as [ | pa | pa]; try lia. destruct b as [ | pb | pb]; try lia.
  unfold int_truediv, fdiv, int_to_float, SFdiv, SFdiv_core_binary.
  set (d1 := Zdigits2 (Zpos pa)). set (d2 := Zdigits2 (Zpos pb)).
  assert (Hd : d2 <= d1) by (apply Zdigits2_mono; lia).
  pose proof (Zdigits2_pos (Zpos pb) ltac:(lia)) as Hd2. fold d2 in Hd2.
  rewrite !Z.add_0_r, Z.sub_diag.
  pose proof (fexp64_spec (d1 - d2)) as Hf.
  set (e' := Z.min (fexp prec emax (d1 - d2)) 0) in *.
  assert (He' : e' = Z.min (d1 - d2 - 53) 0) by (unfold e'; lia).
  set (s := 0 - e').
  assert (Hs : 0 <= s) by (unfold s; lia).
  pose proof (pow2_pos s Hs) as Hps.
  assert (Hm' : match s with
                | Z0 => Zpos pa | Zpos _ => Z.shiftl (Zpos pa) s | Zneg _ => 0
                end = Zpos pa * 2 ^ s).
  { apply shift_case; exact Hs. }
  rewrite Hm'.
  pose proof (Z_div_mod (Zpos pa * 2 ^ s) (Zpos pb) ltac:(lia)) as Heq.
  destruct (Z.div_eucl (Zpos pa * 2 ^ s) (Zpos pb)) as [q r].
  destruct Heq as [Heq Hmod].
  cbn [xorb].
  assert (Hq : 2 ^ s <= q) by nia.
  assert (Hside : e' <= fexp prec emax (Zdigits2 q + e')).
  { (* enough digits in the quotient *)
    destruct (Zdigits2_bounds (Zpos pa) ltac:(lia)) as [Hla _]. fold d1 in Hla.
    destruct (Zdigits2_bounds (Zpos pb) ltac:(lia)) as [_ Hub]. fold d2 in Hub.
    assert (Hq2 : 2 ^ (d1 - 1 + s - d2) <= q).
    { assert (Hx : 2 ^ (d1 - 1 + s - d2) * 2 ^ d2 = 2 ^ (d1 - 1) * 2 ^ s).
      { rewrite <- !Z.pow_add_r by (unfold s in *; lia). f_equal. lia. }
      pose proof (pow2_pos (d1 - 1 + s - d2) ltac:(unfold s; lia)).
      nia. }
    pose proof (Zdigits2_gt q (d1 - 1 + s - d2) ltac:(unfold s; lia) Hq2) as Hdq.
    rewrite fexp64_spec. unfold s in *. lia. }
  assert (Hone : dle (2 ^ 52) (-52) q e').
  { apply (proj2 (dle_base (-52 - s) (2 ^ 52) (-52) q e' ltac:(lia) ltac:(unfold s; lia))).
    replace (-52 - (-52 - s)) with s by lia.
    replace (e' - (-52 - s)) with 52 by (unfold s; lia).
    lia. }
  destruct (binary_round_aux_bounds q e' (new_location (Zpos pb) r) (2 ^ 52) (-52)
              ltac:(lia) Hside ltac:(lia) ltac:(cbn; lia) ltac:(lia) Hone)
    as [Hge Hfin].
  split; [exact Hge | ].
  intros Ha. apply Hfin.
  assert (Hqa : q <= Zpos pa * 2 ^ s) by nia.
  pose proof (Zdigits2_mono q (Zpos pa * 2 ^ s) ltac:(lia)) as Hdq.
  rewrite Zdigits2_mul_pow in Hdq by lia.
  pose proof (Zdigits2_le (Zpos pa) 1023 ltac:(lia) ltac:(lia) Ha) as Hda.
  unfold s in *. lia.
Qed.

Lemma int_truediv_ge_one a b :
  0 < b -> b <= a ->
  ge_bound (2 ^ 52) (-52) (int_truediv a b).
Proof.
  intros Hb Hab. apply (int_truediv_bounds a b Hb Hab).
Qed.

Lemma Zdigits2_mul a b :
  0 < a -> 0 < b -> Zdigits2 a + Zdigits2 b - 1 <= Zdigits2 (a * b).
Proof.
  intros Ha Hb.
  destruct (Zdigits2_bounds a Ha) as [Hla _].
  destruct (Zdigits2_bounds b Hb) as [Hlb _].
  pose proof (Zdigits2_pos a Ha). pose proof (Zdigits2_pos b Hb).
  assert (Hp : 2 ^ (Zdigits2 a + Zdigits2 b - 2) <= a * b).
  { replace (Zdigits2 a + Zdigits2 b - 2) with ((Zdigits2 a - 1) + (Zdigits2 b - 1)) by lia.
    rewrite pow2_split by lia.
    pose proof (pow2_pos (Zdigits2 a - 1) ltac:(lia)).
    pose proof (pow2_pos (Zdigits2 b - 1) ltac:(lia)).
    nia. }
  pose proof (Zdigits2_gt (a * b) (Zdigits2 a + Zdigits2 b - 2) ltac:(lia) Hp). lia.
Qed.

(** a valid float that is at least one is normal *)
Lemma ge_one_normal m e :
  bounded prec emax m e = true -> dle (2 ^ 52) (-52) (Zpos m) e ->
  Zdigits2 (Zpos m) = 53 /\ -52 <= e.
Proof.
  intros Hb Hle.
  unfold bounded, canonical_mantissa in Hb.
  apply andb_prop in Hb. destruct Hb as [Hc _].
  apply Z.eqb_eq in Hc.
  change (Zpos (digits2_pos m)) with (Zdigits2 (Zpos m)) in Hc.
  rewrite fexp64_spec in Hc.
  destruct (Zdigits2_bounds (Zpos m) ltac:(lia)) as [_ Hu].
  pose proof (Zdigits2_pos (Zpos m) ltac:(lia)) as Hd.
  set (d := Zdigits2 (Zpos m)) in *.
  set (b := Z.min (-52) e).
  apply (proj1 (dle_base b (2 ^ 52) (-52) (Zpos m) e ltac:(unfold b; lia) ltac:(unfold b; lia))) in Hle.
  assert (Hlt : 2 ^ (52 + (-52 - b)) < 2 ^ (d + (e - b))).
  { rewrite !pow2_split by (unfold b; lia).
    pose proof (pow2_pos (e - b) ltac:(unfold b; lia)). nia. }
  apply Z.pow_lt_mono_r_iff in Hlt; [ | lia | unfold b; lia].
  lia.
Qed.

(** multiplying a float that is at least one by a normal constant *)
Lemma SFmul_ge_const x mc ec :
  Zdigits2 (Zpos mc) = 53 -> -1074 <= ec ->
  ge_bound (2 ^ 52) (-52) x ->
  ge_bound (Zpos mc) ec (fmul x (S754_finite false mc ec)).
Proof.
  intros Hdc Hec [-> | (m & e & -> & Hb & Hle)].
  - left. reflexivity.
  - destruct (ge_one_normal m e Hb Hle) as [Hd He].
    unfold fmul. cbn [SFmul xorb]. rewrite Pos2Z.inj_mul.
    apply binary_round_aux_lower; try lia.
    + pose proof (Zdigits2_mul (Zpos m) (Zpos mc) ltac:(lia) ltac:(lia)).
      rewrite fexp64_spec. lia.
    + apply (proj1 (dle_base (-52) (2 ^ 52) (-52) (Zpos m) e ltac:(lia) ltac:(lia))) in Hle.
      replace (-52 - -52) with 0 in Hle by lia. rewrite Z.pow_0_r, Z.mul_1_r in Hle.
      apply (proj2 (dle_base (ec - 52) (Zpos mc) ec (Zpos m * Zpos mc) (e + ec)
                      ltac:(lia) ltac:(lia))).
      replace (ec - (ec - 52)) with 52 by lia.
      replace (e + ec - (ec - 52)) with (e - -52) by lia.
      nia.
Qed.

Lemma decimal_4_1 : decimal 4 1 = S754_finite false 7205759403792794 (-54).
Proof. reflexivity. Qed.
Lemma decimal_5_1 : decimal 5 1 = S754_finite false 4503599627370496 (-53).
Proof. reflexivity. Qed.
Lemma decimal_9_1 : decimal 9 1 = S754_finite false 8106479329266893 (-53).
Proof. reflexivity. Qed.

(** [binary_round] keeps the value and meets the side condition of
    [binary_round_aux_lower] *)
Lemma binary_round_lower mx ex rm re :
  0 < rm -> Zdigits2 rm <= 53 -> -1074 <= re ->
  dle rm re (Zpos mx) ex ->
  ge_bound rm re (binary_round prec emax false mx ex).
Proof.
  intros Hrm Hrd Hre Hle.
  unfold binary_round.
  change (Zpos (digits2_pos mx)) with (Zdigits2 (Zpos mx)).
  set (et := fexp prec emax (Zdigits2 (Zpos mx) + ex)).
  destruct (shl_align_spec mx ex et) as [Hs Hm].
  destruct (shl_align mx ex et) as [mz ez]. cbn [fst snd] in Hs, Hm.
  assert (Hd : Zdigits2 (Zpos mz) + ez = Zdigits2 (Zpos mx) + ex).
  { rewrite Hm, Zdigits2_mul_pow by lia. lia. }
  apply binary_round_aux_lower; try lia.
  - rewrite Hd. fold et. lia.
  - set (b := Z.min re ez).
    apply (proj1 (dle_base b rm re (Zpos mx) ex ltac:(unfold b; lia) ltac:(unfold b; lia))) in Hle.
    apply (proj2 (dle_base b rm re (Zpos mz) ez ltac:(unfold b; lia) ltac:(unfold b; lia))).
    rewrite Hm, <- Z.mul_assoc, <- pow2_split by (unfold b; lia).
    replace (ex - Z.min ex et + (ez - b)) with (ex - b) by lia.
    exact Hle.
Qed.

(** one half plus a float that is at least 0.4 is at least 0.9:
    the sum of the two binary64 constants is exactly the constant 0.9 *)
Lemma half_plus_ge y :
  ge_bound 7205759403792794 (-54) y ->
  ge_bound 8106479329266893 (-53) (fadd (decimal 5 1) y).
Proof.
  intros [-> | (my & ey & -> & Hb & Hle)].
  - left. reflexivity.
  - rewrite decimal_5_1. unfold fadd. cbn [SFadd cond_Zopp].
    set (ez := Z.min (-53) ey).
    destruct (shl_align_spec 4503599627370496 (-53) ez) as [_ H1].
    destruct (shl_align_spec my ey ez) as [_ H2].
    replace (Z.min (-53) ez) with ez in H1 by (unfold ez; lia).
    replace (Z.min ey ez) with ez in H2 by (unfold ez; lia).
    set (a := fst (shl_align 4503599627370496 (-53) ez)) in *.
    set (c := fst (shl_align my ey ez)) in *.
    change (Zpos a + Zpos c) with (Zpos (a + c)).
    cbn [binary_normalize].
    apply binary_round_lower; try lia; [cbn; lia | ].
    rewrite Pos2Z.inj_add, H1, H2.
    set (b := Z.min (-54) ez).
    apply (proj1 (dle_base b 7205759403792794 (-54) (Zpos my) ey
                    ltac:(unfold b; lia) ltac:(unfold b, ez; lia))) in Hle.
    apply (proj2 (dle_base b 8106479329266893 (-53) _ ez
                    ltac:(unfold b; lia) ltac:(unfold b; lia))).
    rewrite Z.mul_add_distr_r, <- !Z.mul_assoc, <- !pow2_split by (unfold b, ez; lia).
    replace (-53 - ez + (ez - b)) with (-53 - b) by lia.
    replace (ey - ez + (ez - b)) with (ey - b) by lia.
    replace (-53 - b) with (1 + (-54 - b)) by lia.
    rewrite pow2_split by (unfold b; lia). change (2 ^ 1) with 2.
    pose proof (pow2_pos (-54 - b) ltac:(unfold b; lia)).
    lia.
Qed.

Lemma ge_bound_not_lt mr er x :
  bounded prec emax mr er = true ->
  ge_bound (Zpos mr) er x ->
  flt x (S754_finite false mr er) = false.
Proof.
  intros Hr [-> | (m & e & -> & Hb & Hle)]; [reflexivity | ].
  unfold flt, SFltb, SFcompare.
  unfold bounded, canonical_mantissa in Hr, Hb.
  apply andb_prop in Hr, Hb. destruct Hr as [Hr _]. destruct Hb as [Hb _].
  apply Z.eqb_eq in Hr, Hb.
  change (Zpos (digits2_pos m)) with (Zdigits2 (Zpos m)) in Hb.
  change (Zpos (digits2_pos mr)) with (Zdigits2 (Zpos mr)) in Hr.
  rewrite fexp64_spec in Hr, Hb.
  destruct (Zdigits2_bounds (Zpos m) ltac:(lia)) as [_ Hum].
  destruct (Zdigits2_bounds (Zpos mr) ltac:(lia)) as [Hlr _].
  pose proof (Zdigits2_pos (Zpos m) ltac:(lia)) as Hdm.
  pose proof (Zdigits2_pos (Zpos mr) ltac:(lia)) as Hdr.
  set (dm := Zdigits2 (Zpos m)) in *. set (dr := Zdigits2 (Zpos mr)) in *.
  set (b := Z.min er e).
  apply (proj1 (dle_base b (Zpos mr) er (Zpos m) e
                  ltac:(unfold b; lia) ltac:(unfold b; lia))) in Hle.
  assert (Hmag : dr + er <= dm + e).
  { assert (Hlt : 2 ^ ((dr - 1) + (er - b)) < 2 ^ (dm + (e - b))).
    { rewrite !pow2_split by (unfold b; lia).
      pose proof (pow2_pos (e - b) ltac:(unfold b; lia)).
      pose proof (pow2_pos (er - b) ltac:(unfold b; lia)).
      nia. }
    apply Z.pow_lt_mono_r_iff in Hlt; [ | lia | unfold b; lia].
    lia. }
  destruct (Z.compare_spec e er) as [Heq | Hlt | Hgt]; try reflexivity.
  - subst e. replace b with er in Hle by (unfold b; lia).
    rewrite Z.sub_diag, Z.pow_0_r, !Z.mul_1_r in Hle.
    rewrite Pos.compare_cont_spec. cbn [Pos.switch_Eq].
    destruct (Pos.compare_spec m mr); try reflexivity. lia.
  - lia.
Qed.

End FloatFacts.
Import FloatFacts.

(* ================================================================= *)
(** ** Strings *)

Module StrFacts.

Lemma str_eqb_eq a : forall b, str_eqb a b = true <-> a = b.
Proof.
  induction a as [ | x a IH]; intros [ | y b]; cbn; split; intro H;
    try reflexivity; try discriminate.
  - apply andb_prop in H. destruct H as [Hx Hr].
    apply N.eqb_eq in Hx. apply IH in Hr. congruence.
  - injection H as -> ->. unfold char_eqb. rewrite N.eqb_refl.
    apply IH. reflexivity.
Qed.

Lemma str_eqb_neq a b : str_eqb a b = false <-> a <> b.
Proof.
  rewrite <- str_eqb_eq. destruct (str_eqb a b); split; congruence.
Qed.

Lemma truthy_nonempty s : truthy s = true <-> s <> [].
Proof. destruct s; cbn; split; congruence. Qed.

(** the words that [split] returns are as many as the word starts *)
Lemma split_from_length s : forall word,
  List.length (split_from s word) =
  match word with
  | None => word_starts true s
  | Some _ => S (word_starts false s)
  end.
Proof.
  induction s as [ | c rest IH]; intros [w | ]; cbn [split_from word_starts];
    try reflexivity.
  - destruct (isspace c); cbn [List.length andb negb].
    + rewrite IH. reflexivity.
    + rewrite IH. reflexivity.
  - destruct (isspace c); cbn [andb negb]; rewrite IH; reflexivity.
Qed.

Lemma len_split s : len (split s) = count_words s.
Proof.
  unfold len, split, count_words. rewrite split_from_length. reflexivity.
Qed.

Lemma len_nonneg {A} (l : list A) : 0 <= len l.
Proof. unfold len. lia. Qed.

Lemma contains_In c s : contains c s = true <-> In c s.
Proof.
  unfold contains. rewrite existsb_exists. split.
  - intros (x & Hin & Heq). apply N.eqb_eq in Heq. subst. exact Hin.
  - intros Hin. exists c. split; [exact Hin | apply N.eqb_refl].
Qed.

(** stripping removes white space only *)
Lemma lstrip_keeps c s : In c s -> isspace c = false -> In c (lstrip s).
Proof.
  induction s as [ | x s IH]; cbn; intros Hin Hc; [exact Hin | ].
  destruct (isspace x) eqn:Hx; [ | exact Hin].
  destruct Hin as [-> | Hin]; [congruence | auto].
Qed.

Lemma strip_keeps c s : In c s -> isspace c = false -> In c (strip s).
Proof.
  intros Hin Hc. unfold strip, rstrip.
  apply (proj1 (in_rev _ _)).
  apply lstrip_keeps; [ | exact Hc].
  apply (proj1 (in_rev _ _)). apply lstrip_keeps; assumption.
Qed.

Lemma lstrip_incl c s : In c (lstrip s) -> In c s.
Proof.
  induction s as [ | x s IH]; cbn; [tauto | ].
  destruct (isspace x); [right; auto | tauto].
Qed.

Lemma strip_incl c s : In c (strip s) -> In c s.
Proof.
  unfold strip, rstrip. intros H.
  apply (proj2 (in_rev _ _)) in H. apply lstrip_incl in H.
  apply (proj2 (in_rev _ _)) in H. apply lstrip_incl. exact H.
Qed.

(** the pieces of [split_on] are made of characters of the string *)
Lemma split_on_pieces sep s :
  forall piece c, In piece (split_on sep s) -> In c piece -> In c s.
Proof.
  induction s as [ | x s IH]; cbn [split_on]; intros piece c Hp Hc.
  - destruct Hp as [<- | []]. exact Hc.
  - destruct (char_eqb x sep).
    + destruct Hp as [<- | Hp]; [destruct Hc | right; eauto].
    + destruct (split_on sep s) as [ | p ps] eqn:E.
      * destruct Hp as [<- | []]. destruct Hc as [<- | []]. left; reflexivity.
      * destruct Hp as [<- | Hp].
        -- destruct Hc as [<- | Hc]; [left; reflexivity | right].
           apply (IH p); [left; reflexivity | exact Hc].
        -- right. apply (IH piece); [right; exact Hp | exact Hc].
Qed.

Lemma question_mark_not_space : isspace question_mark = false.
Proof. reflexivity. Qed.

End StrFacts.
Import StrFacts.

(* ================================================================= *)
(** ** The confidence heuristic *)

Module ConfidenceFacts.

Lemma float_eqb_eq x y : float_eqb x y = true -> x = y.
Proof.
  destruct x as [a | a | | a m e], y as [b | b | | b m' e']; cbn;
    try discriminate; try reflexivity.
  - intros H. apply Bool.eqb_prop in H. congruence.
  - intros H. apply Bool.eqb_prop in H. congruence.
  - intros H. apply andb_prop in H. destruct H as [H He].
    apply andb_prop in H. destruct H as [Hs Hm].
    apply Bool.eqb_prop in Hs. apply Pos.eqb_eq in Hm. apply Z.eqb_eq in He.
    congruence.
Qed.

(** a property checked on every word count up to the cap *)
Lemma below_cap_checked (P : Z -> bool) :
  forallb P counts_below_cap = true ->
  forall n, 0 <= n <= 1000 -> P n = true.
Proof.
  intros Hall n Hn. rewrite forallb_forall in Hall. apply Hall.
  unfold counts_below_cap. apply in_map_iff.
  exists (Z.to_nat n). split; [lia | ].
  apply in_seq. lia.
Qed.

(** from a thousand words on, the base confidence is the cap *)
Lemma base_of_cap n : 1000 <= n -> base_of n = decimal 9 1.
Proof.
  intros Hn. unfold base_of, py_min.
  pose proof (int_truediv_ge_one n 1000 ltac:(lia) Hn) as Hq.
  pose proof (SFmul_ge_const _ 7205759403792794 (-54)
                ltac:(reflexivity) ltac:(lia) Hq) as Hp.
  rewrite <- decimal_4_1 in Hp.
  apply half_plus_ge in Hp.
  pose proof (ge_bound_not_lt 8106479329266893 (-53) _ ltac:(reflexivity) Hp) as Hlt.
  rewrite <- decimal_9_1 in Hlt.
  rewrite Hlt. reflexivity.
Qed.

Lemma confidence_of_cap complex n :
  1000 <= n -> confidence_of complex n = confidence_of complex 1000.
Proof.
  intros Hn. unfold confidence_of.
  rewrite (base_of_cap n Hn), (base_of_cap 1000) by lia. reflexivity.
Qed.

(** a property of the returned confidence that holds up to the cap holds
    for every word count *)
Lemma confidence_of_all (P : float -> bool) complex :
  forallb (fun n => P (confidence_of complex n)) counts_below_cap = true ->
  forall n, 0 <= n -> P (confidence_of complex n) = true.
Proof.
  intros Hall n Hn.
  pose proof (below_cap_checked _ Hall) as Ht.
  destruct (Z_le_gt_dec n 1000) as [Hle | Hgt].
  - apply Ht. lia.
  - rewrite confidence_of_cap by lia. apply Ht. lia.
Qed.

(** the source computes the heuristic from the two word counts *)
Lemma calculate_confidence_counts question context :
  truthy context = true -> str_eqb context no_knowledge_base = false ->
  _calculate_confidence question context =
  confidence_of (10 <? len (split question)) (len (split context)).
Proof.
  intros Ht He. unfold _calculate_confidence, confidence_of, base_of.
  rewrite Ht, He. cbn [negb orb].
  destruct (10 <? len (split question)); reflexivity.
Qed.

Lemma calculate_confidence_default question context :
  context = [] \/ context = no_knowledge_base ->
  _calculate_confidence question context = decimal 3 1.
Proof.
  intros [-> | ->]; reflexivity.
Qed.

(** multiplying the base confidence by [1.0] changes nothing *)
Lemma base_of_times_one n :
  0 <= n -> (base_of n * decimal 1 0)%py = base_of n.
Proof.
  intros Hn. destruct (Z_le_gt_dec n 1000) as [Hle | Hgt].
  - apply float_eqb_eq.
    apply (below_cap_checked
             (fun n => float_eqb (base_of n * decimal 1 0)%py (base_of n)));
      [vm_compute; reflexivity | lia].
  - rewrite base_of_cap by lia. vm_compute. reflexivity.
Qed.

(** order on positive finite floats *)
Lemma fle_finite m1 e1 m2 e2 :
  fle (S754_finite false m1 e1) (S754_finite false m2 e2) = true <->
  e1 < e2 \/ (e1 = e2 /\ (m1 <= m2)%positive).
Proof.
  unfold fle, SFleb, SFcompare.
  destruct (Z.compare_spec e1 e2) as [Heq | Hlt | Hgt].
  - rewrite Pos.compare_cont_spec. cbn [Pos.switch_Eq].
    destruct (Pos.compare_spec m1 m2) as [Hm | Hm | Hm]; split; intro H;
      try reflexivity; try discriminate; try lia.
  - split; [lia | reflexivity].
  - split; [discriminate | lia].
Qed.

Lemma fle_trans x y z :
  is_positive_finite x = true -> is_positive_finite y = true ->
  is_positive_finite z = true ->
  fle x y = true -> fle y z = true -> fle x z = true.
Proof.
  destruct x as [ | | | [ | ] m1 e1]; try discriminate.
  destruct y as [ | | | [ | ] m2 e2]; try discriminate.
  destruct z as [ | | | [ | ] m3 e3]; try discriminate.
  intros _ _ _. rewrite !fle_finite. lia.
Qed.

Lemma fle_refl x : is_positive_finite x = true -> fle x x = true.
Proof.
  destruct x as [ | | | [ | ] m1 e1]; try discriminate.
  intros _. rewrite fle_finite. lia.
Qed.

Lemma confidence_of_positive complex n :
  0 <= n -> is_positive_finite (confidence_of complex n) = true.
Proof.
  destruct complex; apply confidence_of_all; vm_compute; reflexivity.
Qed.

(** one more word never lowers the confidence *)
Lemma confidence_of_step complex n :
  0 <= n ->
  fle (confidence_of complex n) (confidence_of complex (n + 1)) = true.
Proof.
  intros Hn. destruct (Z_le_gt_dec n 999) as [Hle | Hgt].
  - destruct complex.
    + pose proof (below_cap_checked
               (fun n => (n =? 1000) ||
                         fle (confidence_of true n) (confidence_of true (n + 1)))
               ltac:(vm_compute; reflexivity) n ltac:(lia)) as H.
      cbv beta in H. apply orb_prop in H. destruct H as [H | H]; [ | exact H].
      apply Z.eqb_eq in H. lia.
    + pose proof (below_cap_checked
               (fun n => (n =? 1000) ||
                         fle (confidence_of false n) (confidence_of false (n + 1)))
               ltac:(vm_compute; reflexivity) n ltac:(lia)) as H.
      cbv beta in H. apply orb_prop in H. destruct H as [H | H]; [ | exact H].
      apply Z.eqb_eq in H. lia.
  - rewrite (confidence_of_cap complex n), (confidence_of_cap complex (n + 1)) by lia.
    apply fle_refl. apply confidence_of_positive. lia.
Qed.

Lemma confidence_of_mono_nat complex n (k : nat) :
  0 <= n ->
  fle (confidence_of complex n) (confidence_of complex (n + Z.of_nat k)) = true.
Proof.
  intros Hn. induction k as [ | k IH].
  - rewrite Z.add_0_r. apply fle_refl. apply confidence_of_positive. exact Hn.
  - replace (n + Z.of_nat (S k)) with ((n + Z.of_nat k) + 1) by lia.
    eapply fle_trans; [ | | | exact IH | apply confidence_of_step; lia];
      apply confidence_of_positive; lia.
Qed.

(** the confidence is monotone in the word count of the context *)
Lemma confidence_of_mono complex n m :
  0 <= n <= m ->
  fle (confidence_of complex n) (confidence_of complex m) = true.
Proof.
  intros Hnm. replace m with (n + Z.of_nat (Z.to_nat (m - n))) by lia.
  apply confidence_of_mono_nat. lia.
Qed.

(** the returned confidence lies between 0.45 and the cap 0.9 *)
Lemma confidence_of_range complex n :
  0 <= n ->
  fle (S754_zero false) (confidence_of complex n) = true /\
  fle (confidence_of complex n) (decimal 9 1) = true.
Proof.
  intros Hn. split.
  - destruct complex;
      apply (confidence_of_all (fun x => fle (S754_zero false) x));
      try exact Hn; vm_compute; reflexivity.
  - destruct complex;
      apply (confidence_of_all (fun x => fle x (decimal 9 1)));
      try exact Hn; vm_compute; reflexivity.
Qed.

(** the factor 0.9 of a long question survives the rounding *)
Lemma confidence_of_complex_lower n :
  0 <= n ->
  flt (confidence_of true n) (confidence_of false n) = true.
Proof.
  intros Hn. destruct (Z_le_gt_dec n 1000) as [Hle | Hgt].
  - apply (below_cap_checked
             (fun n => flt (confidence_of true n) (confidence_of false n)));
      [vm_compute; reflexivity | lia].
  - rewrite !(confidence_of_cap _ n) by lia. vm_compute. reflexivity.
Qed.

(** the division of the source never overflows: a list length is
    below [2^63] *)
Lemma list_length_quotient_finite n :
  0 <= n < 2 ^ 63 -> is_finite (int_truediv n 1000) = true.
Proof.
  intros [Hn0 Hn]. destruct (Z_le_gt_dec n 1000) as [Hle | Hgt].
  - apply (below_cap_checked (fun n => is_finite (int_truediv n 1000)));
      [vm_compute; reflexivity | lia].
  - destruct (int_truediv_bounds n 1000 ltac:(lia) ltac:(lia)) as [Hge Hfin].
    assert (Hbig : n < 2 ^ 1023).
    { eapply Z.lt_le_trans; [exact Hn | ]. apply Z.pow_le_mono_r; lia. }
    specialize (Hfin Hbig).
    destruct Hge as [Hinf | (m & e & -> & _)]; [contradiction | reflexivity].
Qed.

(** up to the cap, the quotient of the model is a nearest binary64
    number to the exact quotient *)
Lemma int_truediv_nearest n :
  0 <= n <= 1000 -> within_half_ulp n 1000 (int_truediv n 1000) = true.
Proof.
  apply (below_cap_checked (fun n => within_half_ulp n 1000 (int_truediv n 1000))).
  vm_compute. reflexivity.
Qed.

(** the decimal literals of the source are nearest binary64 numbers *)
Lemma decimal_literals_nearest :
  within_half_ulp 3 10 (decimal 3 1) = true
  /\ within_half_ulp 4 10 (decimal 4 1) = true
  /\ within_half_ulp 5 10 (decimal 5 1) = true
  /\ within_half_ulp 9 10 (decimal 9 1) = true.
Proof. repeat split; vm_compute; reflexivity. Qed.

End ConfidenceFacts.
Import ConfidenceFacts.

(* ================================================================= *)
(** ** The methods, step by step *)

Module PipelineFacts.
Section PipelineFacts.
Context {index : Type} (sv : services index).

Lemma classify_run question self :
  _classify_question sv question self =
  (Ok match classification_reply sv self question with
      | Ok result => str_lower sv (strip result)
      | Raise _ => general
      end,
   after_classification self question).
Proof.
  unfold _classify_question, try_except, bind, chain_ainvoke, external, ret,
    classification_reply, after_classification, logged.
  destruct (llm_ainvoke sv (history self) (classification_prompt question));
    reflexivity.
Qed.

Lemma relevant_context_run question self :
  _get_relevant_context sv question (after_classification self question) =
  (Ok (relevant_context_of sv self question), after_retrieval self question).
Proof.
  unfold _get_relevant_context, relevant_context_of, after_retrieval,
    retrieval_reply, bind, get_vectorstore, try_except, vs_similarity_search,
    external, ret, after_classification, logged.
  cbn [vectorstore history].
  destruct (vectorstore self) as [store | ]; [ | reflexivity].
  destruct (similarity_search sv _ store question 3); reflexivity.
Qed.

Lemma related_questions_run question self :
  _get_related_questions sv question self =
  match vectorstore self with
  | None => (Ok [], self)
  | Some store =>
      (Ok match similarity_search sv (history self) store question 5 with
          | Ok docs => firstn 3 (scan_docs docs [])
          | Raise _ => []
          end,
       logged self (SimilaritySearch question 5))
  end.
Proof.
  unfold _get_related_questions, bind, get_vectorstore, try_except,
    vs_similarity_search, external, ret, logged.
  destruct self as [[store | ] h]; cbn [vectorstore history]; [ | reflexivity].
  destruct (similarity_search sv h store question 5); reflexivity.
Qed.

Lemma vectorstore_after_answer self question context :
  vectorstore (after_answer sv self question context) = vectorstore self.
Proof.
  unfold after_answer, after_retrieval, after_classification, logged.
  destruct (vectorstore self); reflexivity.
Qed.

(** the [try] block of [answer_question]: it raises exactly when the
    answer chain does *)
Lemma answer_question_body_run question context self :
  answer_question_body sv question context self =
  match answer_reply sv self question context with
  | Ok out =>
      (Ok {| answer := strip out;
             confidence :=
               _calculate_confidence question (relevant_context_of sv self question);
             source := knowledge_base;
             related_questions := related_questions_of sv self question context |},
       after_related sv self question context)
  | Raise e => (Raise e, after_answer sv self question context)
  end.
Proof.
  unfold answer_question_body.
  unfold bind at 1. rewrite classify_run.
  unfold bind at 1. rewrite relevant_context_run.
  unfold bind at 1. unfold chain_ainvoke at 1. unfold external at 1.
  fold (answer_prompt sv self question context).
  fold (answer_reply sv self question context).
  destruct (answer_reply sv self question context) as [out | e];
    [ | reflexivity].
  fold (logged (after_retrieval self question)
               (LlmInvoke (answer_prompt sv self question context))).
  fold (after_answer sv self question context).
  unfold bind. rewrite related_questions_run.
  unfold related_questions_of, after_related, related_reply.
  rewrite vectorstore_after_answer.
  destruct (vectorstore self); reflexivity.
Qed.

Lemma answer_question_run question context self :
  answer_question sv question context self =
  match answer_reply sv self question context with
  | Ok out =>
      (Ok {| answer := strip out;
             confidence :=
               _calculate_confidence question (relevant_context_of sv self question);
             source := knowledge_base;
             related_questions := related_questions_of sv self question context |},
       after_related sv self question context)
  | Raise _ => (Ok failed_response, after_answer sv self question context)
  end.
Proof.
  unfold answer_question, try_except.
  rewrite answer_question_body_run.
  destruct (answer_reply sv self question context); reflexivity.
Qed.

End PipelineFacts.
End PipelineFacts.
Import PipelineFacts.

(* ================================================================= *)
(** ** Related questions: the loops against the specification *)

Module RelatedFacts.

Lemma firstn_firstn_app {A} (c : list A) : forall n k (rest : list A),
  (n <= k)%nat -> firstn n (firstn k c ++ rest) = firstn n (c ++ rest).
Proof.
  induction c as [ | x c IH]; intros n k rest Hnk.
  - rewrite firstn_nil. reflexivity.
  - destruct k as [ | k]; [replace n with 0%nat by lia; reflexivity | ].
    destruct n as [ | n]; [reflexivity | ].
    cbn. f_equal. apply IH. lia.
Qed.

Lemma firstn_app_firstn {A} (related : list A) : forall n k (c rest : list A),
  (n <= List.length related + k)%nat ->
  firstn n ((related ++ firstn k c) ++ rest) = firstn n (related ++ c ++ rest).
Proof.
  induction related as [ | x related IH]; intros n k c rest Hn; cbn [app].
  - apply firstn_firstn_app. cbn in Hn. lia.
  - destruct n as [ | n]; [reflexivity | ].
    cbn [firstn]. f_equal. apply IH. cbn in Hn. lia.
Qed.

(** the inner loop appends the question sentences until three related
    questions are held, and at least one if there is any *)
Lemma scan_sentences_spec sentences : forall related,
  scan_sentences sentences related =
  related ++ firstn (Nat.max 1 (3 - List.length related))
                    (List.map strip (filter Spec.is_question_sentence sentences)).
Proof.
  induction sentences as [ | s rest IH]; intros related; cbn [scan_sentences filter].
  - rewrite firstn_nil, app_nil_r. reflexivity.
  - fold (Spec.is_question_sentence s).
    destruct (Spec.is_question_sentence s); [ | apply IH].
    cbn [List.map].
    destruct (3 <=? len (related ++ [strip s])) eqn:Hfull.
    + apply Z.leb_le in Hfull. unfold len in Hfull.
      rewrite length_app in Hfull. cbn [List.length] in Hfull.
      replace (Nat.max 1 (3 - List.length related)) with 1%nat by lia.
      reflexivity.
    + apply Z.leb_gt in Hfull. unfold len in Hfull.
      rewrite length_app in Hfull. cbn [List.length] in Hfull.
      rewrite IH, length_app. cbn [List.length].
      replace (Nat.max 1 (3 - List.length related))
        with (S (Nat.max 1 (3 - (List.length related + 1)))) by lia.
      cbn [firstn]. rewrite <- app_assoc. reflexivity.
Qed.

Lemma filter_none {A} (f : A -> bool) (l : list A) :
  (forall x, In x l -> f x = false) -> filter f l = [].
Proof.
  induction l as [ | x l IH]; intros Hall; cbn; [reflexivity | ].
  rewrite (Hall x (or_introl eq_refl)). apply IH.
  intros y Hy. apply Hall. right. exact Hy.
Qed.

(** a chunk without a question mark has no question sentence *)
Lemma question_sentences_none content :
  contains question_mark content = false ->
  Spec.question_sentences content = [].
Proof.
  intros Hno. unfold Spec.question_sentences.
  rewrite filter_none; [reflexivity | ].
  intros s Hs. unfold Spec.is_question_sentence.
  destruct (contains question_mark s) eqn:Hq; [ | reflexivity].
  apply contains_In in Hq.
  apply (split_on_pieces _ _ _ _ Hs) in Hq.
  apply contains_In in Hq. congruence.
Qed.

Lemma scan_docs_spec docs : forall related,
  firstn 3 (scan_docs docs related) =
  firstn 3 (related
            ++ flat_map (fun doc => Spec.question_sentences (page_content doc)) docs).
Proof.
  induction docs as [ | doc rest IH]; intros related; cbn [scan_docs flat_map].
  - rewrite app_nil_r. reflexivity.
  - rewrite IH.
    destruct (contains question_mark (page_content doc)) eqn:Hq.
    + rewrite scan_sentences_spec.
      fold (Spec.question_sentences (page_content doc)).
      apply firstn_app_firstn. lia.
    + rewrite (question_sentences_none _ Hq). reflexivity.
Qed.

Lemma scan_docs_related docs :
  firstn 3 (scan_docs docs []) = Spec.related_of_chunks docs.
Proof. apply scan_docs_spec. Qed.

Lemma in_firstn {A} n (l : list A) x : In x (firstn n l) -> In x l.
Proof.
  intros H. rewrite <- (firstn_skipn n l). apply in_or_app. left. exact H.
Qed.

(** what a related question is *)
Lemma related_of_chunks_elements docs x :
  In x (Spec.related_of_chunks docs) ->
  exists doc sentence,
    In doc docs /\ In sentence (split_on full_stop (page_content doc)) /\
    x = strip sentence /\ contains question_mark sentence = true /\
    10 < len x /\ contains question_mark x = true.
Proof.
  intros Hx. unfold Spec.related_of_chunks in Hx.
  apply (in_firstn 3) in Hx. apply in_flat_map in Hx.
  destruct Hx as (doc & Hdoc & Hx).
  unfold Spec.question_sentences in Hx. apply in_map_iff in Hx.
  destruct Hx as (sentence & <- & Hs). apply filter_In in Hs.
  destruct Hs as [Hs Hq]. unfold Spec.is_question_sentence in Hq.
  apply andb_prop in Hq. destruct Hq as [Hq Hlen]. apply Z.ltb_lt in Hlen.
  exists doc, sentence. repeat split; try assumption.
  apply contains_In. apply strip_keeps; [ | apply question_mark_not_space].
  apply contains_In. exact Hq.
Qed.

Lemma related_of_chunks_length docs : len (Spec.related_of_chunks docs) <= 3.
Proof.
  unfold Spec.related_of_chunks, len.
  pose proof (firstn_le_length 3
    (flat_map (fun doc => Spec.question_sentences (page_content doc)) docs)).
  lia.
Qed.

End RelatedFacts.
Import RelatedFacts.

(* ================================================================= *)
(** ** Reloading the knowledge base and adding an entry *)

Module KnowledgeBaseFacts.
Section KnowledgeBaseFacts.
Context {index : Type} (sv : services index).

(** reading the files never raises: a loader that raises is skipped *)
Lemma load_files_returns paths : forall documents self,
  exists loaded self',
    load_files sv paths documents self = (Ok loaded, self') /\
    vectorstore self' = vectorstore self.
Proof.
  induction paths as [ | file_path rest IH]; intros documents self;
    cbn [load_files].
  - exists documents, self. split; reflexivity.
  - unfold bind at 1. unfold path_exists, external_total, external.
    destruct (os_path_exists sv (history self) file_path).
    + unfold bind at 1. unfold try_except, bind, loader_load, external, ret.
      cbn [history vectorstore].
      destruct (text_loader_load sv _ file_path) as [docs | e].
      * destruct (IH (documents ++ docs)
                    {| vectorstore := vectorstore self;
                       history := (history self ++ [PathExists file_path])
                                    ++ [LoaderLoad file_path] |})
          as (loaded & self' & Hrun & Hvs).
        exists loaded, self'. split; [exact Hrun | exact Hvs].
      * destruct (IH documents
                    {| vectorstore := vectorstore self;
                       history := (history self ++ [PathExists file_path])
                                    ++ [LoaderLoad file_path] |})
          as (loaded & self' & Hrun & Hvs).
        exists loaded, self'. split; [exact Hrun | exact Hvs].
    + unfold bind at 1. unfold ret at 1.
      destruct (IH documents
                  {| vectorstore := vectorstore self;
                     history := history self ++ [PathExists file_path] |})
        as (loaded & self' & Hrun & Hvs).
      exists loaded, self'. split; [exact Hrun | exact Hvs].
Qed.

(** [load_knowledge_base] returns whatever happens inside, and leaves
    no index behind when its [try] block raises *)
Lemma load_knowledge_base_returns self :
  exists self',
    load_knowledge_base sv self = (Ok tt, self') /\
    match fst (load_knowledge_base_body sv self) with
    | Ok _ => True
    | Raise _ => vectorstore self' = None
    end.
Proof.
  unfold load_knowledge_base, try_except.
  destruct (load_knowledge_base_body sv self) as [[[] | e] self1];
    cbn [fst].
  - exists self1. split; [reflexivity | exact I].
  - eexists. split; [reflexivity | reflexivity].
Qed.

Lemma add_faq_entry_run question answer category self :
  fst (add_faq_entry sv question answer category self) =
  match fst (append_to_faq_file sv (faq_entry question answer category) self) with
  | Ok _ => Ok true
  | Raise _ => Ok false
  end.
Proof.
  unfold add_faq_entry, try_except. unfold bind at 1.
  destruct (append_to_faq_file sv (faq_entry question answer category) self)
    as [[[] | e] self1]; cbn [fst]; [ | reflexivity].
  unfold bind at 1.
  destruct (load_knowledge_base_returns self1) as (self2 & Hrun & _).
  rewrite Hrun. reflexivity.
Qed.

End KnowledgeBaseFacts.
End KnowledgeBaseFacts.
Import KnowledgeBaseFacts.

(* ================================================================= *)
(** ** The model on concrete inputs *)

Module Examples.

Example split_words :
  split (lit "  hello   world foo ") = [lit "hello"; lit "world"; lit "foo"].
Proof. reflexivity. Qed.

Example strip_both_ends : strip (lit "  ab c ") = lit "ab c".
Proof. reflexivity. Qed.

Example split_on_full_stop :
  split_on full_stop (lit "a.bc..d.")
  = [lit "a"; lit "bc"; []; lit "d"; []].
Proof. reflexivity. Qed.

Example dirname_of_faq_file : os_path_dirname faq_file = kb_dir.
Proof. reflexivity. Qed.

(** the templates have the lengths of the source literals: 700 and 449
    characters with their placeholders, 262 for the business information *)
Example template_lengths :
  len (faq_prompt (lit "{question}") (lit "{context}") (lit "{business_info}")) = 700
  /\ len (classification_prompt (lit "{question}")) = 449
  /\ len _get_business_info = 262
  /\ len apology = 109.
Proof. repeat split; reflexivity. Qed.

(** [round] rounds the exact binary value, ties to even:
    round(0.125, 2) = 0.12, round(0.375, 2) = 0.38,
    round(2.675, 2) = 2.67 *)
Example round_two_places :
  py_round (decimal 125 3) 2 = decimal 12 2
  /\ py_round (decimal 375 3) 2 = decimal 38 2
  /\ py_round (decimal 2675 3) 2 = decimal 267 2.
Proof. repeat split; vm_compute; reflexivity. Qed.

(** the heuristic at a few word counts: 0.5 for four words; with a
    long question 0.45 for none, 0.5 for 125 and 0.59 for 375, where an
    exact computation would sit on the ties 0.495 and 0.585; 0.9 and
    0.81 at the cap *)
Example confidence_samples :
  confidence_of false 4 = decimal 5 1
  /\ confidence_of true 0 = decimal 45 2
  /\ confidence_of true 125 = decimal 5 1
  /\ confidence_of true 375 = decimal 59 2
  /\ confidence_of false 1000 = decimal 9 1
  /\ confidence_of true 1000 = decimal 81 2.
Proof. repeat split; vm_compute; reflexivity. Qed.

(** a healthy run with an index *)
Example healthy_answer :
  exists self',
    answer_question Scenario.healthy Scenario.short_question []
                    Scenario.with_index
    = (Ok {| answer := lit "We are open on weekdays.";
             confidence := decimal 51 2;
             source := knowledge_base;
             related_questions :=
               [lit "Q: What are your business hours? A: Monday through Friday, 9 AM to 5 PM";
                lit "Can I visit on Sunday? No";
                lit "Ok? Do you ship abroad? Where is the shop located? Call us"] |},
       self')
    /\ List.map (fun c => match c with
                          | LlmInvoke _ => 1
                          | SimilaritySearch _ k => k
                          | _ => 0
                          end) (history self')
       = [1; 3; 1; 5].
Proof. eexists. split; vm_compute; reflexivity. Qed.

(** the write fails: [add_faq_entry] returns False and nothing is
    reloaded *)
Example add_entry_disk_full :
  add_faq_entry Scenario.disk_full (lit "Do you ship abroad?") (lit "Yes.")
                general Scenario.with_index
  = (Ok false,
     {| vectorstore := Some tt;
        history := [Makedirs kb_dir;
                    AppendText faq_file
                      (faq_entry (lit "Do you ship abroad?") (lit "Yes.") general)] |}).
Proof. vm_compute. reflexivity. Qed.

(** the reload fails inside: [add_faq_entry] returns True and the index
    is gone *)
Example add_entry_reload_fails :
  fst (add_faq_entry Scenario.embeddings_down (lit "Do you ship abroad?")
                     (lit "Yes.") general Scenario.with_index)
  = Ok true
  /\ vectorstore
       (snd (add_faq_entry Scenario.embeddings_down (lit "Do you ship abroad?")
                           (lit "Yes.") general Scenario.with_index))
     = None.
Proof. split; vm_compute; reflexivity. Qed.

End Examples.

(* ================================================================= *)
(** * The claims of the specification *)

(** ** The confidence heuristic (section 4.5) *)

(** C1. For every question and context the confidence heuristic returns
    0.3 when the context is empty or is the placeholder, and otherwise
    round(min(0.9, 0.5 + (context words / 1000) * 0.4) * (0.9 if the
    question has more than ten words else 1.0), 2), the word counts being
    the numbers of white-space separated words: the source function and
    the formula of the specification agree everywhere. *)
Theorem calculate_confidence_formula (question context : str) :
  _calculate_confidence question context
  = Spec.confidence_formula question context.
Proof.
  unfold _calculate_confidence, Spec.confidence_formula.
  destruct (negb (truthy context) || str_eqb context no_knowledge_base);
    [reflexivity | ].
  rewrite !len_split. fold (base_of (count_words context)).
  destruct (10 <? count_words question); [reflexivity | ].
  rewrite base_of_times_one; [reflexivity | ].
  rewrite <- len_split. apply len_nonneg.
Qed.

(** C6. For a question of at most ten words the confidence never
    decreases when the context has more words, and it saturates at the
    cap: if context A has no more words than context B, both non-empty
    and neither the placeholder, then confidence(question, A) <=
    confidence(question, B) <= 0.9, with 0.9 reached from 1000 words
    on. *)
Theorem confidence_monotone_in_context (question context_a context_b : str) :
  count_words question <= 10 ->
  context_a <> [] -> context_a <> no_knowledge_base ->
  context_b <> [] -> context_b <> no_knowledge_base ->
  count_words context_a <= count_words context_b ->
  fle (_calculate_confidence question context_a)
      (_calculate_confidence question context_b) = true
  /\ fle (_calculate_confidence question context_b) (decimal 9 1) = true
  /\ (1000 <= count_words context_b ->
      _calculate_confidence question context_b = decimal 9 1).
Proof.
  intros Hq Ha1 Ha2 Hb1 Hb2 Hab.
  apply truthy_nonempty in Ha1, Hb1. apply str_eqb_neq in Ha2, Hb2.
  rewrite !calculate_confidence_counts by assumption.
  rewrite !len_split.
  replace (10 <? count_words question) with false by (symmetry; apply Z.ltb_ge; lia).
  assert (H0 : 0 <= count_words context_a)
    by (rewrite <- len_split; apply len_nonneg).
  split; [apply confidence_of_mono; lia | ]. split.
  - apply confidence_of_range. lia.
  - intros Hcap. rewrite confidence_of_cap by exact Hcap.
    vm_compute. reflexivity.
Qed.

Lemma confidence_monotone_witness :
  fle (_calculate_confidence Scenario.short_question Scenario.small_context)
      (_calculate_confidence Scenario.short_question Scenario.large_context) = true
  /\ fle (_calculate_confidence Scenario.short_question Scenario.large_context)
         (decimal 9 1) = true
  /\ (1000 <= count_words Scenario.large_context ->
      _calculate_confidence Scenario.short_question Scenario.large_context
      = decimal 9 1).
Proof.
  apply (confidence_monotone_in_context
           Scenario.short_question Scenario.small_context Scenario.large_context);
    try discriminate; vm_compute; discriminate.
Defined.

(** C7. For every context that is neither empty nor the placeholder, a
    question of 15 words gets a strictly lower confidence than a
    question of 5 words: the factor 0.9 survives the rounding to two
    decimal places. *)
Theorem long_question_lowers_confidence (context short long : str) :
  context <> [] -> context <> no_knowledge_base ->
  count_words short = 5 -> count_words long = 15 ->
  flt (_calculate_confidence long context)
      (_calculate_confidence short context) = true.
Proof.
  intros Hc1 Hc2 Hs Hl.
  apply truthy_nonempty in Hc1. apply str_eqb_neq in Hc2.
  rewrite !calculate_confidence_counts by assumption.
  rewrite !len_split, Hs, Hl.
  change (10 <? 15) with true. change (10 <? 5) with false.
  apply confidence_of_complex_lower.
  rewrite <- len_split. apply len_nonneg.
Qed.

Lemma long_question_lowers_confidence_witness :
  flt (_calculate_confidence Scenario.long_question Scenario.large_context)
      (_calculate_confidence Scenario.short_question Scenario.large_context) = true.
Proof.
  apply (long_question_lowers_confidence
           Scenario.large_context Scenario.short_question Scenario.long_question);
    try discriminate; reflexivity.
Defined.

(** ** The pipeline (section 4.6) *)






(** C4. The related questions that [answer_question] returns are at most
    three, each contains a question mark and is a stripped full-stop
    delimited sentence of more than ten characters; they are the first
    such sentences of the chunks retrieved with k = 5, in chunk order
    (and there is none when no index exists, when that search raises, or
    in the failed response). *)
Theorem related_questions_spec {index : Type} (sv : services index)
        (self : processor index) (question context : str) :
  exists response self',
    answer_question sv question context self = (Ok response, self')
    /\ len (related_questions response) <= 3
    /\ (forall x, In x (related_questions response) ->
          contains question_mark x = true /\ 10 < len x)
    /\ (related_questions response = []
        \/ exists store docs,
             vectorstore self = Some store
             /\ related_reply sv self store question context = Ok docs
             /\ related_questions response = Spec.related_of_chunks docs
             /\ forall x, In x (related_questions response) ->
                  exists doc sentence,
                    In doc docs
                    /\ In sentence (split_on full_stop (page_content doc))
                    /\ x = strip sentence).
Proof.
  rewrite answer_question_run.
  destruct (answer_reply sv self question context) as [out | e].
  - eexists. eexists. split; [reflexivity | ]. cbn [related_questions].
    unfold related_questions_of.
    destruct (vectorstore self) as [store | ].
    + destruct (related_reply sv self store question context) as [docs | e] eqn:Hr.
      * rewrite scan_docs_related. split; [apply related_of_chunks_length | ].
        split.
        -- intros x Hx.
           destruct (related_of_chunks_elements docs x Hx)
             as (doc & s & _ & _ & _ & _ & Hlen & Hq).
           split; assumption.
        -- right. exists store, docs.
           split; [reflexivity | ]. split; [exact Hr | ].
           split; [reflexivity | ].
           intros x Hx.
           destruct (related_of_chunks_elements docs x Hx)
             as (doc & s & Hd & Hs & Hxs & _).
           exists doc, s. split; [exact Hd | ]. split; [exact Hs | exact Hxs].
      * split; [cbn; lia | ]. split; [intros x [] | left; reflexivity].
    + split; [cbn; lia | ]. split; [intros x [] | left; reflexivity].
  - exists failed_response. eexists. split; [reflexivity | ].
    cbn [related_questions failed_response].
    split; [cbn; lia | ]. split; [intros x [] | left; reflexivity].
Qed.

Lemma related_questions_witness :
  exists response,
    fst (answer_question Scenario.healthy Scenario.short_question []
                         Scenario.with_index) = Ok response
    /\ related_questions response
       = [lit "Q: What are your business hours? A: Monday through Friday, 9 AM to 5 PM";
          lit "Can I visit on Sunday? No";
          lit "Ok? Do you ship abroad? Where is the shop located? Call us"]
    /\ contains question_mark (lit "Can I visit on Sunday? No") = true
    /\ 10 < len (lit "Can I visit on Sunday? No").
Proof.
  destruct (related_questions_spec Scenario.healthy Scenario.with_index
                                   Scenario.short_question [])
    as (response & self' & Hrun & _ & Hall & _).
  vm_compute in Hrun. injection Hrun as <- <-.
  eexists. split; [vm_compute; reflexivity | ].
  split; [reflexivity | ].
  apply Hall. right. left. reflexivity.
Defined.

(** C8. When the classification call to the completion service raises,
    [_classify_question] returns the label general and
    [answer_question] goes on: the retrieval runs next (with a search
    when an index exists), then the answer chain is invoked, and the
    outcome is that of the remaining steps, the failed response only if
    the answer chain itself raises. *)
Theorem classification_failure_is_absorbed {index : Type} (sv : services index)
        (self : processor index) (question context : str) (e : exn) :
  classification_reply sv self question = Raise e ->
  _classify_question sv question self
  = (Ok general, after_classification self question)
  /\ _get_relevant_context sv question (after_classification self question)
     = (Ok (relevant_context_of sv self question),
        after_retrieval self question)
  /\ (exists later,
        history (snd (answer_question sv question context self))
        = history self ++ LlmInvoke (classification_prompt question) :: later
        /\ In (LlmInvoke (answer_prompt sv self question context)) later
        /\ (vectorstore self <> None -> In (SimilaritySearch question 3) later))
  /\ fst (answer_question sv question context self)
     = match answer_reply sv self question context with
       | Ok out =>
           Ok {| answer := strip out;
                 confidence :=
                   _calculate_confidence
                     question (relevant_context_of sv self question);
                 source := knowledge_base;
                 related_questions :=
                   related_questions_of sv self question context |}
       | Raise _ => Ok failed_response
       end.
Proof.
  intros Hc. split; [rewrite classify_run, Hc; reflexivity | ].
  split; [apply relevant_context_run | ].
  rewrite answer_question_run. split.
  - destruct (answer_reply sv self question context) as [out | e'];
      cbn [snd]; unfold after_related, after_answer, after_retrieval,
                   after_classification, logged;
      destruct (vectorstore self) as [store | ]; cbn [history vectorstore];
      rewrite <- ?app_assoc; cbn [app]; eexists;
      (split; [reflexivity | ]);
      (split; [ | intros Hv; try congruence]); cbn; tauto.
  - destruct (answer_reply sv self question context); reflexivity.
Qed.

Lemma classification_failure_witness :
  _classify_question Scenario.first_call_fails Scenario.short_question
                     Scenario.with_index
  = (Ok general, after_classification Scenario.with_index Scenario.short_question)
  /\ fst (answer_question Scenario.first_call_fails Scenario.short_question []
                          Scenario.with_index)
     = match answer_reply Scenario.first_call_fails Scenario.with_index
                          Scenario.short_question [] with
       | Ok out =>
           Ok {| answer := strip out;
                 confidence :=
                   _calculate_confidence
                     Scenario.short_question
                     (relevant_context_of Scenario.first_call_fails
                        Scenario.with_index Scenario.short_question);
                 source := knowledge_base;
                 related_questions :=
                   related_questions_of Scenario.first_call_fails
                     Scenario.with_index Scenario.short_question [] |}
       | Raise _ => Ok failed_response
       end
  /\ answer_reply Scenario.first_call_fails Scenario.with_index
                  Scenario.short_question []
     = Ok (lit " We are open on weekdays. ").
Proof.
  destruct (classification_failure_is_absorbed
              Scenario.first_call_fails Scenario.with_index
              Scenario.short_question [] Scenario.timeout eq_refl)
    as (H1 & _ & _ & H4).
  split; [exact H1 | ]. split; [exact H4 | reflexivity].
Defined.

(** The statement of C9 fails when the completion service raises as
    well: the search and the answer chain both raise, and the response is
    the failed one, with source error. *)
Lemma retrieval_and_completion_failure :
  vectorstore Scenario.with_index = Some tt
  /\ retrieval_reply Scenario.search_and_completion_down Scenario.with_index tt
                     Scenario.short_question = Raise Scenario.timeout
  /\ fst (answer_question Scenario.search_and_completion_down
                          Scenario.short_question [] Scenario.with_index)
     = Ok failed_response
  /\ source failed_response <> knowledge_base
  /\ confidence failed_response <> decimal 5 1.
Proof.
  split; [reflexivity | ]. split; [reflexivity | ].
  split; [vm_compute; reflexivity | ].
  split; vm_compute; discriminate.
Qed.

(** C9, amended. When an index exists and the similarity search raises
    during the retrieval, the retrieval step returns the literal string
    "Error retrieving relevant information." instead of raising; the
    confidence computed from that string of four words is 0.5 for a
    question of at most ten words, never the 0.3 of the missing index;
    and whenever the answer chain returns, the response has source
    knowledge_base and that confidence. *)
Theorem retrieval_failure_is_absorbed {index : Type} (sv : services index)
        (self : processor index) (store : index) (question context : str)
        (e : exn) :
  vectorstore self = Some store ->
  retrieval_reply sv self store question = Raise e ->
  _get_relevant_context sv question (after_classification self question)
  = (Ok retrieval_error, after_retrieval self question)
  /\ count_words retrieval_error = 4
  /\ (count_words question <= 10 ->
      _calculate_confidence question retrieval_error = decimal 5 1)
  /\ _calculate_confidence question retrieval_error <> decimal 3 1
  /\ forall out,
       answer_reply sv self question context = Ok out ->
       exists response,
         fst (answer_question sv question context self) = Ok response
         /\ answer response = strip out
         /\ source response = knowledge_base
         /\ confidence response
            = _calculate_confidence question retrieval_error.
Proof.
  intros Hvs Hsearch.
  assert (Hctx : relevant_context_of sv self question = retrieval_error).
  { unfold relevant_context_of. rewrite Hvs, Hsearch. reflexivity. }
  split; [rewrite relevant_context_run, Hctx; reflexivity | ].
  split; [reflexivity | ].
  assert (Hcalc : forall complex,
             confidence_of complex (count_words retrieval_error) <> decimal 3 1).
  { intros [ | ]; vm_compute; discriminate. }
  rewrite calculate_confidence_counts by reflexivity.
  rewrite !len_split.
  split.
  - intros Hq.
    replace (10 <? count_words question) with false
      by (symmetry; apply Z.ltb_ge; lia).
    vm_compute. reflexivity.
  - split; [apply Hcalc | ].
    intros out Hreply. rewrite answer_question_run, Hreply, Hctx.
    eexists. split; [reflexivity | ]. cbn [answer source confidence].
    split; [reflexivity | ]. split; [reflexivity | ].
    rewrite calculate_confidence_counts by reflexivity.
    rewrite !len_split. reflexivity.
Qed.

Lemma retrieval_failure_witness :
  _calculate_confidence Scenario.short_question retrieval_error = decimal 5 1
  /\ exists response,
       fst (answer_question Scenario.search_down Scenario.short_question []
                            Scenario.with_index) = Ok response
       /\ answer response = strip (lit " We are open on weekdays. ")
       /\ source response = knowledge_base
       /\ confidence response
          = _calculate_confidence Scenario.short_question retrieval_error.
Proof.
  destruct (retrieval_failure_is_absorbed
              Scenario.search_down Scenario.with_index tt
              Scenario.short_question [] Scenario.timeout eq_refl eq_refl)
    as (_ & _ & Hconf & _ & Hresp).
  split.
  - apply Hconf. vm_compute. discriminate.
  - apply (Hresp (lit " We are open on weekdays. ")). reflexivity.
Defined.

(** The statement of C5 fails in its second half: without an index and
    with a completion service that raises, the confidence of the response
    is 0.0, not 0.3. *)
Lemma no_index_completion_failure :
  vectorstore Scenario.without_index = None
  /\ fst (answer_question Scenario.completion_down Scenario.short_question []
                          Scenario.without_index)
     = Ok failed_response
  /\ confidence failed_response = S754_zero false
  /\ confidence failed_response <> decimal 3 1.
Proof.
  split; [reflexivity | ]. split; [vm_compute; reflexivity | ].
  split; [reflexivity | vm_compute; discriminate].
Qed.

(** C5, amended. For every question and context the confidence of the
    response of [answer_question] lies in the closed interval
    [0.0, 0.9]; when no index exists it is 0.3 if the answer chain
    returns, and the 0.0 of the failed response if the answer chain
    raises. *)
Theorem confidence_invariant {index : Type} (sv : services index)
        (self : processor index) (question context : str) :
  exists response self',
    answer_question sv question context self = (Ok response, self')
    /\ fle (S754_zero false) (confidence response) = true
    /\ fle (confidence response) (decimal 9 1) = true
    /\ (vectorstore self = None ->
        match answer_reply sv self question context with
        | Ok _ => confidence response = decimal 3 1
        | Raise _ => confidence response = S754_zero false
        end).
Proof.
  rewrite answer_question_run.
  destruct (answer_reply sv self question context) as [out | e].
  - eexists. eexists. split; [reflexivity | ]. cbn [confidence].
    set (rc := relevant_context_of sv self question).
    assert (Hrange : fle (S754_zero false) (_calculate_confidence question rc) = true
                     /\ fle (_calculate_confidence question rc) (decimal 9 1) = true).
    { destruct (truthy rc) eqn:Ht;
        [destruct (str_eqb rc no_knowledge_base) eqn:He | ].
      - apply str_eqb_eq in He. rewrite He. split; reflexivity.
      - rewrite calculate_confidence_counts by assumption.
        apply confidence_of_range. apply len_nonneg.
      - destruct rc; [split; reflexivity | discriminate Ht]. }
    destruct Hrange as [Hlo Hhi].
    split; [exact Hlo | ]. split; [exact Hhi | ].
    intros Hvs. unfold rc, relevant_context_of. rewrite Hvs. reflexivity.
  - exists failed_response. eexists. split; [reflexivity | ].
    split; [reflexivity | ]. split; [reflexivity | ].
    intros _. reflexivity.
Qed.

Lemma confidence_invariant_witness :
  exists response,
    fst (answer_question Scenario.healthy Scenario.short_question []
                         Scenario.without_index) = Ok response
    /\ fle (S754_zero false) (confidence response) = true
    /\ fle (confidence response) (decimal 9 1) = true
    /\ confidence response = decimal 3 1.
Proof.
  destruct (confidence_invariant Scenario.healthy Scenario.without_index
                                 Scenario.short_question [])
    as (response & self' & Hrun & Hlo & Hhi & Hdefault).
  exists response. rewrite Hrun.
  split; [reflexivity | ]. split; [exact Hlo | ]. split; [exact Hhi | ].
  apply (Hdefault eq_refl).
Defined.

(** ** Adding an entry *)

(** C10. [add_faq_entry] returns a boolean: False when the block that
    appends the entry to the FAQ file raises, True otherwise, also when
    the reload that follows fails inside, because [load_knowledge_base]
    never raises: it catches what its [try] block raises and leaves the
    index at None. *)
Theorem add_faq_entry_returns {index : Type} (sv : services index)
        (self : processor index) (question answer category : str) :
  fst (add_faq_entry sv question answer category self)
  = match fst (append_to_faq_file sv (faq_entry question answer category) self) with
    | Ok _ => Ok true
    | Raise _ => Ok false
    end
  /\ forall reloaded : processor index,
       exists self',
         load_knowledge_base sv reloaded = (Ok tt, self')
         /\ match fst (load_knowledge_base_body sv reloaded) with
            | Ok _ => True
            | Raise _ => vectorstore self' = None
            end.
Proof.
  split; [apply add_faq_entry_run | apply load_knowledge_base_returns].
Qed.

(* ================================================================= *)
(** * Further properties of the code *)

(** ** More on strings *)

Module StripFacts.

Lemma lstrip_idempotent s : lstrip (lstrip s) = lstrip s.
Proof.
  induction s as [ | c s IH]; cbn [lstrip]; [reflexivity | ].
  destruct (isspace c) eqn:Hc; [exact IH | ].
  cbn [lstrip]. rewrite Hc. reflexivity.
Qed.

Lemma lstrip_snoc s c :
  isspace c = false -> lstrip (s ++ [c]) = lstrip s ++ [c].
Proof.
  intros Hc. induction s as [ | x s IH]; cbn [lstrip app].
  - rewrite Hc. reflexivity.
  - destruct (isspace x); [exact IH | reflexivity].
Qed.

Lemma rstrip_cons c s :
  isspace c = false -> rstrip (c :: s) = c :: rstrip s.
Proof.
  intros Hc. unfold rstrip. cbn [rev].
  rewrite lstrip_snoc by exact Hc.
  rewrite rev_app_distr. reflexivity.
Qed.

Lemma rstrip_idempotent s : rstrip (rstrip s) = rstrip s.
Proof.
  unfold rstrip. rewrite rev_involutive, lstrip_idempotent. reflexivity.
Qed.

Lemma lstrip_head s :
  lstrip s = [] \/ exists c rest, lstrip s = c :: rest /\ isspace c = false.
Proof.
  induction s as [ | x s IH]; cbn [lstrip]; [left; reflexivity | ].
  destruct (isspace x) eqn:Hx; [exact IH | ].
  right. exists x, s. split; [reflexivity | exact Hx].
Qed.

Lemma strip_idempotent s : strip (strip s) = strip s.
Proof.
  unfold strip.
  destruct (lstrip_head s) as [-> | (c & rest & -> & Hc)]; [reflexivity | ].
  rewrite rstrip_cons by exact Hc. cbn [lstrip]. rewrite Hc.
  rewrite <- (rstrip_cons c rest Hc). apply rstrip_idempotent.
Qed.

Lemma last_rev_cons {A} (l : list A) (x d : A) : List.last (rev (x :: l)) d = x.
Proof. cbn [rev]. apply last_last. Qed.

Lemma rstrip_last s d :
  rstrip s = [] \/ isspace (List.last (rstrip s) d) = false.
Proof.
  unfold rstrip.
  destruct (lstrip_head (rev s)) as [-> | (c & rest & -> & Hc)];
    [left; reflexivity | right].
  rewrite last_rev_cons. exact Hc.
Qed.

Lemma strip_is_stripped s : Observe.is_stripped (strip s) = true.
Proof.
  unfold Observe.is_stripped.
  destruct (strip s) as [ | c rest] eqn:E; [reflexivity | ].
  assert (Hhead : isspace c = false).
  { unfold strip in E.
    destruct (lstrip_head s) as [H0 | (x & r & Hx & Hsp)].
    - rewrite H0 in E. discriminate E.
    - rewrite Hx, rstrip_cons in E by exact Hsp. congruence. }
  rewrite Hhead. cbn [negb andb].
  destruct (rstrip_last (lstrip s) c) as [H0 | Hl].
  - unfold strip in E. rewrite H0 in E. discriminate E.
  - fold (strip s) in Hl. rewrite E in Hl.
    destruct rest as [ | y rest']; [cbn; rewrite Hhead; reflexivity | ].
    cbn [List.last] in Hl |- *. rewrite Hl. reflexivity.
Qed.

Lemma lstrip_all_space s :
  (forall c, In c s -> isspace c = true) -> lstrip s = [].
Proof.
  induction s as [ | x s IH]; intros Hall; cbn [lstrip]; [reflexivity | ].
  rewrite (Hall x (or_introl eq_refl)). apply IH.
  intros c Hc. apply Hall. right. exact Hc.
Qed.

Lemma strip_all_space s :
  (forall c, In c s -> isspace c = true) -> strip s = [].
Proof.
  intros Hall. unfold strip. rewrite lstrip_all_space by exact Hall.
  reflexivity.
Qed.

(** the pieces of [split_on] do not contain the separator *)
Lemma split_on_no_separator sep s :
  forall piece, In piece (split_on sep s) -> contains sep piece = false.
Proof.
  induction s as [ | x s IH]; cbn [split_on]; intros piece Hp.
  - destruct Hp as [<- | []]. reflexivity.
  - destruct (char_eqb x sep) eqn:Hx.
    + destruct Hp as [<- | Hp]; [reflexivity | apply IH; exact Hp].
    + destruct (split_on sep s) as [ | p ps] eqn:E.
      * destruct Hp as [<- | []]. cbn. unfold char_eqb in *.
        rewrite N.eqb_sym, Hx. reflexivity.
      * destruct Hp as [<- | Hp].
        -- cbn. unfold char_eqb in *. rewrite N.eqb_sym, Hx. cbn.
           apply (IH p). left. reflexivity.
        -- apply IH. right. exact Hp.
Qed.

End StripFacts.
Import StripFacts.

(** ** More on [answer_question] *)

Module AnswerFacts.
Section AnswerFacts.
Context {index : Type} (sv : services index).

Lemma after_related_vectorstore self question context :
  vectorstore (after_related sv self question context) = vectorstore self.
Proof.
  unfold after_related.
  destruct (vectorstore self) eqn:Hv; cbn [logged vectorstore];
    rewrite vectorstore_after_answer; exact Hv.
Qed.

Lemma after_retrieval_history (self : processor index) question :
  history (after_retrieval self question)
  = history self ++ [LlmInvoke (classification_prompt question)]
      ++ match vectorstore self with
         | Some _ => [SimilaritySearch question 3]
         | None => []
         end.
Proof.
  unfold after_retrieval, after_classification, logged.
  destruct (vectorstore self); cbn [history];
    rewrite <- ?app_assoc; reflexivity.
Qed.

Lemma after_retrieval_not_start (self : processor index) question :
  history (after_retrieval self question) <> history self.
Proof.
  rewrite after_retrieval_history. intros H.
  apply (f_equal (@List.length call)) in H.
  rewrite !length_app in H. cbn [List.length] in H. lia.
Qed.

End AnswerFacts.
End AnswerFacts.
Import AnswerFacts.

(** X1. [answer_question] leaves the index of the processor as it
    found it and appends to the call log, in this order: the
    classification call, the search with k = 3 if an index exists, the
    call of the answer chain, and the search with k = 5 if an index
    exists and the answer chain returned.  So a request costs exactly
    two completion calls and at most two searches, and none without an
    index. *)
Theorem answer_question_calls {index : Type} (sv : services index)
        (self : processor index) (question context : str) :
  let self' := snd (answer_question sv question context self) in
  vectorstore self' = vectorstore self
  /\ history self'
     = history self
         ++ [LlmInvoke (classification_prompt question)]
         ++ match vectorstore self with
            | Some _ => [SimilaritySearch question 3]
            | None => []
            end
         ++ [LlmInvoke (answer_prompt sv self question context)]
         ++ match vectorstore self, answer_reply sv self question context with
            | Some _, Ok _ => [SimilaritySearch question 5]
            | _, _ => []
            end
  /\ Observe.prompts (history self')
     = Observe.prompts (history self)
         ++ [classification_prompt question;
             answer_prompt sv self question context].
Proof.
  cbv zeta. rewrite answer_question_run.
  assert (Hafter : history (after_answer sv self question context)
                   = history self
                       ++ [LlmInvoke (classification_prompt question)]
                       ++ match vectorstore self with
                          | Some _ => [SimilaritySearch question 3]
                          | None => []
                          end
                       ++ [LlmInvoke (answer_prompt sv self question context)]).
  { unfold after_answer, logged. cbn [history].
    rewrite after_retrieval_history, <- !app_assoc. reflexivity. }
  destruct (answer_reply sv self question context) as [out | e]; cbn [snd].
  - split; [apply after_related_vectorstore | ].
    assert (Hhist : history (after_related sv self question context)
                    = history (after_answer sv self question context)
                        ++ match vectorstore self with
                           | Some _ => [SimilaritySearch question 5]
                           | None => []
                           end).
    { unfold after_related, logged.
      destruct (vectorstore self); cbn [history];
        [reflexivity | rewrite app_nil_r; reflexivity]. }
    rewrite Hhist, Hafter. split.
    + rewrite <- !app_assoc. destruct (vectorstore self); reflexivity.
    + unfold Observe.prompts. rewrite !flat_map_app.
      destruct (vectorstore self); cbn; rewrite ?app_nil_r; reflexivity.
  - split; [apply vectorstore_after_answer | ].
    rewrite Hafter. split.
    + destruct (vectorstore self); rewrite ?app_nil_r; reflexivity.
    + unfold Observe.prompts. rewrite !flat_map_app.
      destruct (vectorstore self); cbn; rewrite ?app_nil_r; reflexivity.
Qed.

(** X2. The label of the classification step is never used: two runs
    whose collaborators differ only in the reply to the classification
    call (and in [str.lower]) return the same response and leave the same
    processor. *)
Theorem classification_never_matters {index : Type} (sv sv' : services index)
        (self : processor index) (question context : str) :
  (forall calls prompt,
      calls <> history self ->
      llm_ainvoke sv calls prompt = llm_ainvoke sv' calls prompt) ->
  (forall calls store query k,
      similarity_search sv calls store query k
      = similarity_search sv' calls store query k) ->
  answer_question sv question context self
  = answer_question sv' question context self.
Proof.
  intros Hllm Hsearch.
  assert (Hctx : relevant_context_of sv self question
                 = relevant_context_of sv' self question).
  { unfold relevant_context_of, retrieval_reply.
    destruct (vectorstore self); [rewrite Hsearch | ]; reflexivity. }
  assert (Hprompt : answer_prompt sv self question context
                    = answer_prompt sv' self question context).
  { unfold answer_prompt. rewrite Hctx. reflexivity. }
  assert (Hreply : answer_reply sv self question context
                   = answer_reply sv' self question context).
  { unfold answer_reply. rewrite Hprompt.
    apply Hllm. apply after_retrieval_not_start. }
  assert (Hafter : after_answer sv self question context
                   = after_answer sv' self question context).
  { unfold after_answer. rewrite Hprompt. reflexivity. }
  assert (Hrel : related_questions_of sv self question context
                 = related_questions_of sv' self question context).
  { unfold related_questions_of, related_reply.
    destruct (vectorstore self); [rewrite Hafter, Hsearch | ]; reflexivity. }
  rewrite !answer_question_run, Hreply, Hctx, Hrel.
  unfold after_related. rewrite Hafter. reflexivity.
Qed.

Lemma classification_never_matters_witness :
  answer_question Scenario.healthy Scenario.short_question []
                  Scenario.with_index
  = answer_question Scenario.first_call_fails Scenario.short_question []
                    Scenario.with_index.
Proof.
  apply (classification_never_matters
           Scenario.healthy Scenario.first_call_fails Scenario.with_index
           Scenario.short_question []).
  - intros calls prompt Hcalls. destruct calls as [ | c calls].
    + exfalso. apply Hcalls. reflexivity.
    + reflexivity.
  - reflexivity.
Defined.

(** X3. The context that the caller supplies reaches the prompt only:
    whenever the answer chain returns, the confidence and the source of
    the response are the same for every caller context. *)
Theorem caller_context_leaves_confidence {index : Type} (sv : services index)
        (self : processor index) (question context_a context_b out_a out_b : str) :
  answer_reply sv self question context_a = Ok out_a ->
  answer_reply sv self question context_b = Ok out_b ->
  exists response_a response_b,
    fst (answer_question sv question context_a self) = Ok response_a
    /\ fst (answer_question sv question context_b self) = Ok response_b
    /\ confidence response_a = confidence response_b
    /\ source response_a = source response_b.
Proof.
  intros Ha Hb. rewrite !answer_question_run, Ha, Hb.
  eexists. eexists. repeat (split; [reflexivity | ]). reflexivity.
Qed.

Lemma caller_context_leaves_confidence_witness :
  exists response_a response_b,
    fst (answer_question Scenario.healthy Scenario.short_question []
                         Scenario.with_index) = Ok response_a
    /\ fst (answer_question Scenario.healthy Scenario.short_question
                            Scenario.large_context Scenario.with_index)
       = Ok response_b
    /\ confidence response_a = confidence response_b
    /\ source response_a = source response_b.
Proof.
  apply (caller_context_leaves_confidence
           Scenario.healthy Scenario.with_index Scenario.short_question
           [] Scenario.large_context
           (lit " We are open on weekdays. ") (lit " We are open on weekdays. "));
    reflexivity.
Defined.



(** X5. The answer of every response is stripped: it neither starts
    nor ends with white space, and stripping it again changes nothing. *)
Theorem answer_is_stripped {index : Type} (sv : services index)
        (self : processor index) (question context : str) :
  exists response,
    fst (answer_question sv question context self) = Ok response
    /\ strip (answer response) = answer response
    /\ Observe.is_stripped (answer response) = true.
Proof.
  rewrite answer_question_run.
  destruct (answer_reply sv self question context) as [out | e].
  - eexists. split; [reflexivity | ]. cbn [answer].
    split; [apply strip_idempotent | apply strip_is_stripped].
  - exists failed_response. split; [reflexivity | ]. split; reflexivity.
Qed.

(** X6. A completion made of white space only is passed on as an empty
    answer with source knowledge_base: the apology is kept for
    exceptions, an empty answer is not an error. *)
Theorem blank_completion_gives_empty_answer {index : Type} (sv : services index)
        (self : processor index) (question context out : str) :
  answer_reply sv self question context = Ok out ->
  (forall c, In c out -> isspace c = true) ->
  exists response,
    fst (answer_question sv question context self) = Ok response
    /\ answer response = []
    /\ source response = knowledge_base
    /\ response <> failed_response.
Proof.
  intros Hreply Hblank. rewrite answer_question_run, Hreply.
  eexists. split; [reflexivity | ]. cbn [answer source].
  split; [apply strip_all_space; exact Hblank | ].
  split; [reflexivity | ].
  intros H. apply (f_equal source) in H. discriminate H.
Qed.

Lemma blank_completion_witness :
  exists response,
    fst (answer_question Observe.blank_reply Scenario.short_question []
                         Scenario.with_index) = Ok response
    /\ answer response = []
    /\ source response = knowledge_base
    /\ response <> failed_response.
Proof.
  apply (blank_completion_gives_empty_answer
           Observe.blank_reply Scenario.with_index Scenario.short_question []
           (lit "   ")).
  - reflexivity.
  - intros c Hc. cbn in Hc.
    destruct Hc as [<- | [<- | [<- | []]]]; reflexivity.
Defined.

(** ** More on the confidence heuristic *)

Module GridFacts.

Lemma float_eqb_refl x : float_eqb x x = true.
Proof.
  destruct x as [s | s | | s m e]; cbn; try reflexivity;
    rewrite ?Bool.eqb_reflx, ?Pos.eqb_refl, ?Z.eqb_refl; reflexivity.
Qed.

Lemma float_eqb_iff x y : float_eqb x y = true <-> x = y.
Proof.
  split; [apply float_eqb_eq | intros ->; apply float_eqb_refl].
Qed.

Lemma nondegenerate context :
  negb (truthy context) || str_eqb context no_knowledge_base = false ->
  truthy context = true /\ str_eqb context no_knowledge_base = false.
Proof.
  destruct (truthy context), (str_eqb context no_knowledge_base);
    cbn; intros H; try discriminate H; split; reflexivity.
Qed.

Lemma degenerate context :
  negb (truthy context) || str_eqb context no_knowledge_base = true ->
  context = [] \/ context = no_knowledge_base.
Proof.
  intros H. apply orb_prop in H. destruct H as [H | H].
  - left. destruct context; [reflexivity | discriminate H].
  - right. apply str_eqb_eq. exact H.
Qed.

Lemma count_words_nonneg s : 0 <= count_words s.
Proof. rewrite <- len_split. apply len_nonneg. Qed.

End GridFacts.
Import GridFacts.

(** X7. The value returned by [_calculate_confidence] is always a
    number of hundredths: 0.30, or one of 0.45, 0.46, ..., 0.90.  Nothing
    between 0.30 and 0.45 and nothing above 0.90 is ever returned. *)
Theorem confidence_is_a_hundredth (question context : str) :
  exists k,
    _calculate_confidence question context = decimal k 2
    /\ (k = 30 \/ 45 <= k <= 90).
Proof.
  destruct (negb (truthy context) || str_eqb context no_knowledge_base) eqn:Hd.
  - exists 30. split; [ | left; reflexivity].
    rewrite (calculate_confidence_default question context (degenerate _ Hd)).
    vm_compute. reflexivity.
  - destruct (nondegenerate _ Hd) as [Ht He].
    rewrite calculate_confidence_counts by assumption.
    set (complex := 10 <? len (split question)).
    set (x := confidence_of complex (len (split context))).
    assert (Hgrid : float_eqb x (decimal (Observe.hundredths x) 2)
                    && (45 <=? Observe.hundredths x)
                    && (Observe.hundredths x <=? 90) = true).
    { apply (confidence_of_all
               (fun x => float_eqb x (decimal (Observe.hundredths x) 2)
                         && (45 <=? Observe.hundredths x)
                         && (Observe.hundredths x <=? 90)));
        [ | apply len_nonneg].
      destruct complex; vm_compute; reflexivity. }
    apply andb_prop in Hgrid. destruct Hgrid as [Hgrid Hhi].
    apply andb_prop in Hgrid. destruct Hgrid as [Heq Hlo].
    exists (Observe.hundredths x).
    split; [apply float_eqb_eq; exact Heq | right].
    apply Z.leb_le in Hlo, Hhi. lia.
Qed.

(** X8. The default 0.3 is returned for the empty context and for the
    placeholder [no_knowledge_base], which ends with a full stop, and
    for nothing else: every other context, whatever it holds, gets at
    least 0.45. *)
Theorem default_confidence_iff (question context : str) :
  (_calculate_confidence question context = decimal 3 1
   <-> context = [] \/ context = no_knowledge_base)
  /\ (context <> [] -> context <> no_knowledge_base ->
      fle (decimal 45 2) (_calculate_confidence question context) = true).
Proof.
  assert (Hlow : context <> [] -> context <> no_knowledge_base ->
                 fle (decimal 45 2) (_calculate_confidence question context) = true
                 /\ _calculate_confidence question context <> decimal 3 1).
  { intros H1 H2. apply truthy_nonempty in H1. apply str_eqb_neq in H2.
    rewrite calculate_confidence_counts by assumption.
    set (complex := 10 <? len (split question)).
    assert (Hboth : fle (decimal 45 2)
                        (confidence_of complex (len (split context)))
                    && negb (float_eqb (confidence_of complex (len (split context)))
                                       (decimal 3 1)) = true).
    { apply (confidence_of_all
               (fun x => fle (decimal 45 2) x && negb (float_eqb x (decimal 3 1))));
        [ | apply len_nonneg].
      destruct complex; vm_compute; reflexivity. }
    apply andb_prop in Hboth. destruct Hboth as [Hge Hne].
    split; [exact Hge | ].
    intros Heq. rewrite Heq in Hne. rewrite float_eqb_refl in Hne.
    discriminate Hne. }
  split; [ | intros H1 H2; apply (Hlow H1 H2)].
  split.
  - intros Heq.
    destruct context as [ | c rest]; [left; reflexivity | right].
    destruct (str_eqb (c :: rest) no_knowledge_base) eqn:He;
      [apply str_eqb_eq; exact He | ].
    apply str_eqb_neq in He.
    destruct (Hlow ltac:(discriminate) He) as [_ Hne]. contradiction.
  - apply calculate_confidence_default.
Qed.

Lemma default_confidence_witness :
  fle (decimal 45 2)
      (_calculate_confidence Scenario.long_question retrieval_error) = true.
Proof.
  apply (proj2 (default_confidence_iff Scenario.long_question retrieval_error));
    discriminate.
Defined.

(** X9. A context made of white space only is not empty for the
    heuristic: it has no word, and it gets 0.5 (0.45 for a question of
    more than ten words), above the 0.3 of a missing knowledge base. *)
Theorem blank_context_confidence (question context : str) :
  context <> [] -> count_words context = 0 ->
  _calculate_confidence question context
  = if 10 <? count_words question then decimal 45 2 else decimal 5 1.
Proof.
  intros Hne Hwords.
  assert (Hnk : str_eqb context no_knowledge_base = false).
  { apply str_eqb_neq. intros ->. vm_compute in Hwords. discriminate Hwords. }
  apply truthy_nonempty in Hne.
  rewrite calculate_confidence_counts by assumption.
  rewrite !len_split, Hwords.
  destruct (10 <? count_words question); vm_compute; reflexivity.
Qed.

Lemma blank_context_confidence_witness :
  _calculate_confidence Scenario.short_question (lit "   ")
  = if 10 <? count_words Scenario.short_question
    then decimal 45 2 else decimal 5 1.
Proof.
  apply (blank_context_confidence Scenario.short_question (lit "   "));
    [discriminate | reflexivity].
Defined.

(** X10. After the rounding the cap is reached before the nominal
    thousand words: for a context that is neither empty nor the
    placeholder, a question of at most ten words gets 0.9 exactly from
    988 words on, and a longer question gets its maximum 0.81 exactly
    from 987 words on. *)
Theorem cap_thresholds (question context : str) :
  context <> [] -> context <> no_knowledge_base ->
  (count_words question <= 10 ->
   (_calculate_confidence question context = decimal 9 1
    <-> 988 <= count_words context))
  /\ (10 < count_words question ->
      fle (_calculate_confidence question context) (decimal 81 2) = true
      /\ (_calculate_confidence question context = decimal 81 2
          <-> 987 <= count_words context)).
Proof.
  intros H1 H2. apply truthy_nonempty in H1. apply str_eqb_neq in H2.
  rewrite calculate_confidence_counts by assumption.
  rewrite !len_split.
  pose proof (count_words_nonneg context) as Hn.
  set (n := count_words context) in *.
  split.
  - intros Hq.
    replace (10 <? count_words question) with false
      by (symmetry; apply Z.ltb_ge; lia).
    assert (Hb : Bool.eqb (float_eqb (confidence_of false n) (decimal 9 1))
                          (988 <=? n) = true).
    { destruct (Z_le_gt_dec n 1000) as [Hle | Hgt].
      - apply (below_cap_checked
                 (fun n => Bool.eqb (float_eqb (confidence_of false n) (decimal 9 1))
                                    (988 <=? n)));
          [vm_compute; reflexivity | lia].
      - rewrite confidence_of_cap by lia.
        replace (988 <=? n) with true by (symmetry; apply Z.leb_le; lia).
        vm_compute. reflexivity. }
    apply Bool.eqb_prop in Hb.
    rewrite <- float_eqb_iff, Hb. apply Z.leb_le.
  - intros Hq.
    replace (10 <? count_words question) with true
      by (symmetry; apply Z.ltb_lt; lia).
    split.
    + apply (confidence_of_all (fun x => fle x (decimal 81 2)));
        [vm_compute; reflexivity | exact Hn].
    + assert (Hb : Bool.eqb (float_eqb (confidence_of true n) (decimal 81 2))
                            (987 <=? n) = true).
      { destruct (Z_le_gt_dec n 1000) as [Hle | Hgt].
        - apply (below_cap_checked
                   (fun n => Bool.eqb (float_eqb (confidence_of true n) (decimal 81 2))
                                      (987 <=? n)));
            [vm_compute; reflexivity | lia].
        - rewrite confidence_of_cap by lia.
          replace (987 <=? n) with true by (symmetry; apply Z.leb_le; lia).
          vm_compute. reflexivity. }
      apply Bool.eqb_prop in Hb.
      rewrite <- float_eqb_iff, Hb. apply Z.leb_le.
Qed.

Lemma cap_thresholds_witness :
  _calculate_confidence Scenario.short_question Scenario.large_context
  <> decimal 9 1.
Proof.
  destruct (cap_thresholds Scenario.short_question Scenario.large_context
              ltac:(discriminate) ltac:(discriminate)) as [Hshort _].
  intros Heq. apply (Hshort ltac:(vm_compute; discriminate)) in Heq.
  vm_compute in Heq. apply Heq. reflexivity.
Defined.

(** ** More on the related questions *)

(** X11. No related question contains a full stop, and every one is
    stripped: the sentences are cut at every full stop, also inside a
    number or an abbreviation, before the white space around them is
    removed. *)
Theorem related_questions_shape {index : Type} (sv : services index)
        (self : processor index) (question context : str) :
  exists response,
    fst (answer_question sv question context self) = Ok response
    /\ forall x, In x (related_questions response) ->
         contains full_stop x = false
         /\ Observe.is_stripped x = true
         /\ strip x = x.
Proof.
  destruct (related_questions_spec sv self question context)
    as (response & self' & Hrun & _ & _ & Hshape).
  exists response. rewrite Hrun. split; [reflexivity | ].
  intros x Hx.
  destruct Hshape as [Hnil | (store & docs & _ & _ & _ & Helem)];
    [rewrite Hnil in Hx; destruct Hx | ].
  destruct (Helem x Hx) as (doc & sentence & _ & Hs & ->).
  split; [ | split; [apply strip_is_stripped | apply strip_idempotent]].
  destruct (contains full_stop (strip sentence)) eqn:Hc; [ | reflexivity].
  apply contains_In in Hc. apply strip_incl in Hc. apply contains_In in Hc.
  rewrite (split_on_no_separator _ _ _ Hs) in Hc. discriminate Hc.
Qed.

Lemma related_questions_shape_witness :
  contains full_stop (lit "Can I visit on Sunday? No") = false
  /\ Observe.is_stripped (lit "Can I visit on Sunday? No") = true
  /\ strip (lit "Can I visit on Sunday? No") = lit "Can I visit on Sunday? No".
Proof.
  destruct (related_questions_shape Scenario.healthy Scenario.with_index
                                    Scenario.short_question [])
    as (response & Hrun & Hall).
  vm_compute in Hrun. injection Hrun as <-.
  apply Hall. right. left. reflexivity.
Defined.

(** X12. Related questions are not deduplicated: when the search
    returns the same chunk twice and the chunk has one question sentence,
    that sentence is returned twice. *)
Theorem related_questions_keep_duplicates {index : Type} (sv : services index)
        (self : processor index) (store : index) (question context out : str)
        (chunk : Document) (x : str) :
  vectorstore self = Some store ->
  answer_reply sv self question context = Ok out ->
  related_reply sv self store question context = Ok [chunk; chunk] ->
  scan_sentences (split_on full_stop (page_content chunk)) [] = [x] ->
  contains question_mark (page_content chunk) = true ->
  exists response,
    fst (answer_question sv question context self) = Ok response
    /\ related_questions response = [x; x].
Proof.
  intros Hvs Hreply Hsearch Hone Hq.
  rewrite answer_question_run, Hreply.
  eexists. split; [reflexivity | ]. cbn [related_questions].
  unfold related_questions_of. rewrite Hvs, Hsearch.
  cbn [scan_docs]. rewrite Hq, Hone.
  rewrite scan_sentences_spec.
  rewrite scan_sentences_spec in Hone. cbn [List.length app Nat.sub Nat.max] in Hone.
  cbn [List.length Nat.sub Nat.max].
  destruct (List.map strip
              (filter Spec.is_question_sentence
                      (split_on full_stop (page_content chunk))))
    as [ | y [ | z rest]]; cbn in Hone; try discriminate Hone.
  injection Hone as ->. reflexivity.
Qed.

Lemma related_questions_keep_duplicates_witness :
  exists response,
    fst (answer_question Observe.same_chunk_twice Scenario.short_question []
                         Scenario.with_index) = Ok response
    /\ related_questions response
       = [lit "Are you open on Sunday? No"; lit "Are you open on Sunday? No"].
Proof.
  apply (related_questions_keep_duplicates
           Observe.same_chunk_twice Scenario.with_index tt
           Scenario.short_question [] (lit " We are open on weekdays. ")
           Observe.one_question (lit "Are you open on Sunday? No"));
    reflexivity.
Defined.

(** ** More on the knowledge base *)

Module ReloadFacts.
Section ReloadFacts.
Context {index : Type} (sv : services index).

Lemma probes_app (h calls : list call) :
  Observe.probes (h ++ calls) = Observe.probes h ++ Observe.probes calls.
Proof. apply flat_map_app. Qed.

(** what [load_files] reads and calls depends on the calls made before,
    not on the index; it probes every path, in order *)
Lemma load_files_frame paths : forall documents h,
  exists loaded calls,
    (forall v,
       load_files sv paths documents {| vectorstore := v; history := h |}
       = (Ok loaded, {| vectorstore := v; history := h ++ calls |}))
    /\ Observe.probes calls = paths.
Proof.
  induction paths as [ | file_path rest IH]; intros documents h.
  - exists documents, []. split; [ | reflexivity].
    intros v. rewrite app_nil_r. reflexivity.
  - destruct (os_path_exists sv h file_path) eqn:He.
    + destruct (text_loader_load sv (h ++ [PathExists file_path]) file_path)
        as [docs | e] eqn:Hl.
      * destruct (IH (documents ++ docs)
                     ((h ++ [PathExists file_path]) ++ [LoaderLoad file_path]))
          as (loaded & calls & Hrun & Hp).
        exists loaded, (PathExists file_path :: LoaderLoad file_path :: calls).
        split; [ | cbn; rewrite <- Hp; reflexivity].
        intros v. cbn [load_files]. unfold bind at 1.
        unfold path_exists, external_total, external.
        cbn [history vectorstore]. rewrite He.
        unfold bind at 1. unfold try_except, bind, loader_load, external, ret.
        cbn [history vectorstore]. rewrite Hl, Hrun, <- !app_assoc.
        reflexivity.
      * destruct (IH documents
                     ((h ++ [PathExists file_path]) ++ [LoaderLoad file_path]))
          as (loaded & calls & Hrun & Hp).
        exists loaded, (PathExists file_path :: LoaderLoad file_path :: calls).
        split; [ | cbn; rewrite <- Hp; reflexivity].
        intros v. cbn [load_files]. unfold bind at 1.
        unfold path_exists, external_total, external.
        cbn [history vectorstore]. rewrite He.
        unfold bind at 1. unfold try_except, bind, loader_load, external, ret.
        cbn [history vectorstore]. rewrite Hl, Hrun, <- !app_assoc.
        reflexivity.
    + destruct (IH documents (h ++ [PathExists file_path]))
        as (loaded & calls & Hrun & Hp).
      exists loaded, (PathExists file_path :: calls).
      split; [ | cbn; rewrite <- Hp; reflexivity].
      intros v. cbn [load_files]. unfold bind at 1.
      unfold path_exists, external_total, external.
      cbn [history vectorstore]. rewrite He.
      unfold bind at 1. unfold ret at 1. rewrite Hrun, <- !app_assoc.
      reflexivity.
Qed.

(** files that do not exist are probed and nothing else *)
Lemma load_files_absent paths :
  (forall h path, In path paths -> os_path_exists sv h path = false) ->
  forall documents v h,
    load_files sv paths documents {| vectorstore := v; history := h |}
    = (Ok documents,
       {| vectorstore := v; history := h ++ List.map PathExists paths |}).
Proof.
  induction paths as [ | file_path rest IH]; intros Habsent documents v h.
  - cbn. rewrite app_nil_r. reflexivity.
  - cbn [load_files List.map]. unfold bind at 1.
    unfold path_exists, external_total, external.
    cbn [history vectorstore].
    rewrite (Habsent h file_path (or_introl eq_refl)).
    unfold bind at 1. unfold ret at 1.
    rewrite IH by (intros h' path Hin; apply Habsent; right; exact Hin).
    rewrite <- app_assoc. reflexivity.
Qed.

(** The whole of [load_knowledge_base], from the calls made before:
    the index that it leaves and the calls that it adds do not depend on
    the index that it finds. *)
Lemma load_knowledge_base_frame h :
  exists store calls,
    (forall v,
       load_knowledge_base sv {| vectorstore := v; history := h |}
       = (Ok tt, {| vectorstore := store;
                    history := h ++ Makedirs kb_dir :: calls |}))
    /\ match os_makedirs sv h kb_dir with
       | Raise _ => store = None /\ calls = []
       | Ok _ =>
           Observe.probes calls = faq_files
           /\ forall built, store = Some built ->
                exists documents splits reads,
                  documents <> []
                  /\ calls = reads ++ [SplitDocuments 1000 200 documents;
                                       FaissFromDocuments splits]
                  /\ split_documents sv (h ++ Makedirs kb_dir :: reads)
                                     1000 200 documents = Ok splits
                  /\ faiss_from_documents
                       sv (h ++ Makedirs kb_dir :: reads
                             ++ [SplitDocuments 1000 200 documents]) splits
                     = Ok built
       end.
Proof.
  destruct (os_makedirs sv h kb_dir) as [[] | e] eqn:Hmk.
  - destruct (load_files_frame faq_files [] (h ++ [Makedirs kb_dir]))
      as (loaded & reads & Hrun & Hp).
    destruct loaded as [ | doc docs].
    + exists None, reads. split; [ | split; [exact Hp | discriminate]].
      intros v. unfold load_knowledge_base, try_except,
        load_knowledge_base_body.
      unfold bind at 1. unfold makedirs, external.
      cbn [history vectorstore]. rewrite Hmk.
      unfold bind at 1. rewrite Hrun. unfold set_vectorstore.
      cbn [history]. rewrite <- app_assoc. reflexivity.
    + destruct (split_documents sv ((h ++ [Makedirs kb_dir]) ++ reads)
                                1000 200 (doc :: docs))
        as [splits | e] eqn:Hsplit.
      * destruct (faiss_from_documents
                    sv (((h ++ [Makedirs kb_dir]) ++ reads)
                          ++ [SplitDocuments 1000 200 (doc :: docs)]) splits)
          as [built | e] eqn:Hbuild.
        -- exists (Some built),
             (reads ++ [SplitDocuments 1000 200 (doc :: docs);
                        FaissFromDocuments splits]).
           split; [ | split].
           ++ intros v. unfold load_knowledge_base, try_except,
                load_knowledge_base_body.
              unfold bind at 1. unfold makedirs, external.
              cbn [history vectorstore]. rewrite Hmk.
              unfold bind at 1. rewrite Hrun.
              unfold bind at 1. unfold splitter_split_documents, external.
              cbn [history vectorstore]. rewrite Hsplit.
              unfold bind at 1. unfold faiss_build, external.
              cbn [history vectorstore]. rewrite Hbuild.
              unfold set_vectorstore. cbn [history].
              rewrite <- !app_assoc. reflexivity.
           ++ rewrite probes_app. cbn. rewrite app_nil_r. exact Hp.
           ++ intros built' Heq. injection Heq as <-.
              exists (doc :: docs), splits, reads.
              split; [discriminate | split; [reflexivity | ]].
              rewrite <- !app_assoc in Hsplit.
              rewrite <- !app_assoc in Hbuild.
              split; [exact Hsplit | exact Hbuild].
        -- exists None,
             (reads ++ [SplitDocuments 1000 200 (doc :: docs);
                        FaissFromDocuments splits]).
           split; [ | split; [ | discriminate]].
           ++ intros v. unfold load_knowledge_base, try_except,
                load_knowledge_base_body.
              unfold bind at 1. unfold makedirs, external.
              cbn [history vectorstore]. rewrite Hmk.
              unfold bind at 1. rewrite Hrun.
              unfold bind at 1. unfold splitter_split_documents, external.
              cbn [history vectorstore]. rewrite Hsplit.
              unfold bind at 1. unfold faiss_build, external.
              cbn [history vectorstore]. rewrite Hbuild.
              unfold set_vectorstore. cbn [history].
              rewrite <- !app_assoc. reflexivity.
           ++ rewrite probes_app. cbn. rewrite app_nil_r. exact Hp.
      * exists None, (reads ++ [SplitDocuments 1000 200 (doc :: docs)]).
        split; [ | split; [ | discriminate]].
        -- intros v. unfold load_knowledge_base, try_except,
             load_knowledge_base_body.
           unfold bind at 1. unfold makedirs, external.
           cbn [history vectorstore]. rewrite Hmk.
           unfold bind at 1. rewrite Hrun.
           unfold bind at 1. unfold splitter_split_documents, external.
           cbn [history vectorstore]. rewrite Hsplit.
           unfold set_vectorstore. cbn [history].
           rewrite <- !app_assoc. reflexivity.
        -- rewrite probes_app. cbn. rewrite app_nil_r. exact Hp.
  - exists None, []. split; [ | split; reflexivity].
    intros v. unfold load_knowledge_base, try_except,
      load_knowledge_base_body.
    unfold bind at 1. unfold makedirs, external.
    cbn [history vectorstore]. rewrite Hmk. reflexivity.
Qed.

Lemma processor_eta (self : processor index) :
  self = {| vectorstore := vectorstore self; history := history self |}.
Proof. destruct self; reflexivity. Qed.

Lemma dirname_faq_file : os_path_dirname faq_file = kb_dir.
Proof. reflexivity. Qed.

End ReloadFacts.
End ReloadFacts.
Import ReloadFacts.

(** X13. A reload does not look at the index that the processor holds:
    two processors with the same calls behind them are left in the same
    state by [load_knowledge_base], whatever index each held.  Nothing of
    an old index survives a reload, also not when the reload fails. *)
Theorem reload_forgets_old_index {index : Type} (sv : services index)
        (self other : processor index) :
  history self = history other ->
  load_knowledge_base sv self = load_knowledge_base sv other.
Proof.
  intros Hh.
  destruct (load_knowledge_base_frame sv (history self))
    as (store & calls & Hrun & _).
  rewrite (processor_eta self), (processor_eta other), <- Hh.
  cbn [history vectorstore]. rewrite !Hrun. reflexivity.
Qed.

Lemma reload_forgets_old_index_witness :
  load_knowledge_base Scenario.embeddings_down Scenario.with_index
  = load_knowledge_base Scenario.embeddings_down Scenario.without_index.
Proof.
  apply (reload_forgets_old_index Scenario.embeddings_down
                                  Scenario.with_index Scenario.without_index).
  reflexivity.
Defined.

(** X14. [load_knowledge_base] never raises and first creates the
    directory of the knowledge base.  When that call returns, it probes
    the three files, each once and in the order faq, products, support,
    whatever the loaders, the splitter and the embeddings do; when it
    raises, nothing else is called and no index is left. *)
Theorem reload_probes_every_file {index : Type} (sv : services index)
        (self : processor index) :
  exists self' calls,
    load_knowledge_base sv self = (Ok tt, self')
    /\ history self' = history self ++ Makedirs kb_dir :: calls
    /\ match os_makedirs sv (history self) kb_dir with
       | Ok _ =>
           Observe.probes calls
           = [lit "data/knowledge_base/faq.txt";
              lit "data/knowledge_base/products.txt";
              lit "data/knowledge_base/support.txt"]
       | Raise _ => calls = [] /\ vectorstore self' = None
       end.
Proof.
  destruct (load_knowledge_base_frame sv (history self))
    as (store & calls & Hrun & Hshape).
  exists {| vectorstore := store;
            history := history self ++ Makedirs kb_dir :: calls |}, calls.
  split; [rewrite (processor_eta self) at 1; apply Hrun | ].
  split; [reflexivity | ].
  destruct (os_makedirs sv (history self) kb_dir).
  - exact (proj1 Hshape).
  - destruct Hshape as [-> ->]. split; reflexivity.
Qed.

(** X15. An index that a reload leaves was built by
    [FAISS.from_documents], in the last call of the reload, from the
    chunks that the splitter made, with chunk size 1000 and overlap 200,
    of a non-empty list of documents. *)
Theorem index_comes_from_faiss {index : Type} (sv : services index)
        (self self' : processor index) (built : index) :
  snd (load_knowledge_base sv self) = self' ->
  vectorstore self' = Some built ->
  exists documents splits before,
    documents <> []
    /\ history self'
       = before ++ [SplitDocuments 1000 200 documents;
                    FaissFromDocuments splits]
    /\ split_documents sv before 1000 200 documents = Ok splits
    /\ faiss_from_documents
         sv (before ++ [SplitDocuments 1000 200 documents]) splits
       = Ok built.
Proof.
  intros Hrun Hbuilt.
  destruct (load_knowledge_base_frame sv (history self))
    as (store & calls & Hframe & Hshape).
  rewrite (processor_eta self), Hframe in Hrun. cbn [snd] in Hrun.
  subst self'. cbn [vectorstore history] in *.
  destruct (os_makedirs sv (history self) kb_dir).
  - destruct Hshape as [_ Hbuild].
    destruct (Hbuild built Hbuilt)
      as (documents & splits & reads & Hne & -> & Hsplit & Hfaiss).
    exists documents, splits, (history self ++ Makedirs kb_dir :: reads).
    split; [exact Hne | ]. split; [ | split].
    + rewrite <- app_assoc. reflexivity.
    + exact Hsplit.
    + rewrite <- app_assoc. exact Hfaiss.
  - destruct Hshape as [-> _]. discriminate Hbuilt.
Qed.

Lemma index_comes_from_faiss_witness :
  exists documents splits before,
    documents <> []
    /\ history (snd (load_knowledge_base Scenario.healthy
                                         Scenario.without_index))
       = before ++ [SplitDocuments 1000 200 documents;
                    FaissFromDocuments splits]
    /\ split_documents Scenario.healthy before 1000 200 documents = Ok splits
    /\ faiss_from_documents
         Scenario.healthy (before ++ [SplitDocuments 1000 200 documents])
         splits
       = Ok tt.
Proof.
  apply (index_comes_from_faiss
           Scenario.healthy Scenario.without_index
           (snd (load_knowledge_base Scenario.healthy Scenario.without_index))
           tt);
    reflexivity.
Defined.

(** X16. When none of the three files exists, a reload leaves no index
    and calls neither a loader nor the splitter nor the embeddings: it
    creates the directory and probes the three files. *)
Theorem no_files_no_index {index : Type} (sv : services index)
        (self : processor index) :
  (forall h path, In path faq_files -> os_path_exists sv h path = false) ->
  exists self',
    load_knowledge_base sv self = (Ok tt, self')
    /\ vectorstore self' = None
    /\ history self'
       = history self
           ++ Makedirs kb_dir
           :: match os_makedirs sv (history self) kb_dir with
              | Ok _ => List.map PathExists faq_files
              | Raise _ => []
              end.
Proof.
  intros Habsent. destruct self as [v h]. cbn [history].
  unfold load_knowledge_base, try_except, load_knowledge_base_body.
  unfold bind at 1. unfold makedirs, external. cbn [history vectorstore].
  destruct (os_makedirs sv h kb_dir) as [[] | e].
  - unfold bind at 1. rewrite (load_files_absent sv faq_files Habsent).
    unfold set_vectorstore. cbn [history].
    eexists. split; [reflexivity | ]. split; [reflexivity | ].
    cbn [history]. rewrite <- app_assoc. reflexivity.
  - eexists. split; [reflexivity | ]. split; reflexivity.
Qed.

Lemma no_files_no_index_witness :
  exists self',
    load_knowledge_base Observe.no_files Scenario.with_index = (Ok tt, self')
    /\ vectorstore self' = None
    /\ history self'
       = [Makedirs kb_dir;
          PathExists (lit "data/knowledge_base/faq.txt");
          PathExists (lit "data/knowledge_base/products.txt");
          PathExists (lit "data/knowledge_base/support.txt")].
Proof.
  apply (no_files_no_index Observe.no_files Scenario.with_index).
  intros h path _. reflexivity.
Defined.

(** ** More on [add_faq_entry] *)

(** X17. [add_faq_entry] never raises; it creates the directory,
    appends the entry to the FAQ file and reloads, in this order.  It
    returns True exactly when creating the directory and writing both
    returned, and then the entry was written before the reload started.
    It returns False exactly when one of the two raised; then nothing is
    reloaded, the index stays as it was, and nothing is written when
    creating the directory raised. *)
Theorem add_faq_entry_outcome {index : Type} (sv : services index)
        (self : processor index) (question answer category : str) :
  let entry := faq_entry question answer category in
  exists (added : bool) self',
    add_faq_entry sv question answer category self = (Ok added, self')
    /\ if added
       then os_makedirs sv (history self) kb_dir = Ok tt
            /\ append_text sv (history self ++ [Makedirs kb_dir])
                           faq_file entry = Ok tt
            /\ exists calls,
                 history self'
                 = history self
                     ++ [Makedirs kb_dir; AppendText faq_file entry]
                     ++ Makedirs kb_dir :: calls
       else vectorstore self' = vectorstore self
            /\ exists e,
                 (os_makedirs sv (history self) kb_dir = Raise e
                  /\ history self' = history self ++ [Makedirs kb_dir])
                 \/ (os_makedirs sv (history self) kb_dir = Ok tt
                     /\ append_text sv (history self ++ [Makedirs kb_dir])
                                    faq_file entry = Raise e
                     /\ history self'
                        = history self
                            ++ [Makedirs kb_dir; AppendText faq_file entry]).
Proof.
  cbv zeta. destruct self as [v h]. cbn [history vectorstore].
  unfold add_faq_entry, try_except. unfold bind at 1.
  unfold append_to_faq_file. unfold bind at 1.
  unfold makedirs, external. cbn [history vectorstore].
  rewrite dirname_faq_file.
  destruct (os_makedirs sv h kb_dir) as [[] | e] eqn:Hmk.
  - unfold open_append_write, external. cbn [history vectorstore].
    destruct (append_text sv (h ++ [Makedirs kb_dir]) faq_file
                          (faq_entry question answer category))
      as [[] | e] eqn:Hwrite.
    + unfold bind at 1.
      destruct (load_knowledge_base_frame
                  sv ((h ++ [Makedirs kb_dir])
                        ++ [AppendText faq_file
                                       (faq_entry question answer category)]))
        as (store & calls & Hrun & _).
      rewrite Hrun. unfold ret.
      eexists true, _. split; [reflexivity | ].
      split; [reflexivity | ]. split; [reflexivity | ].
      exists calls. cbn [history]. rewrite <- !app_assoc. reflexivity.
    + eexists false, _. split; [reflexivity | ].
      split; [reflexivity | ]. exists e. right.
      split; [reflexivity | ]. split; [reflexivity | ]. cbn [history].
      rewrite <- app_assoc. reflexivity.
  - eexists false, _. split; [reflexivity | ].
    split; [reflexivity | ]. exists e. left. split; reflexivity.
Qed.

(** X18. Adding an entry while the embeddings cannot be built returns
    True and leaves the processor without an index, also when it had one
    before.  From then on the statistics say empty and every answered
    question gets confidence 0.3 and no related questions. *)
Theorem add_entry_while_embeddings_down {index : Type} (sv : services index)
        (cl : Rest.clients index) (self self' : processor index)
        (question answer category : str) :
  (forall h splits, exists e, faiss_from_documents sv h splits = Raise e) ->
  add_faq_entry sv question answer category self = (Ok true, self') ->
  vectorstore self' = None
  /\ fst (Rest.get_knowledge_base_stats cl self')
     = Ok {| Rest.status := Rest.empty; Rest.documents := 0;
             Rest.last_updated := None |}
  /\ forall asked context out,
       answer_reply sv self' asked context = Ok out ->
       fst (answer_question sv asked context self')
       = Ok {| answer := strip out;
               confidence := decimal 3 1;
               source := knowledge_base;
               related_questions := [] |}.
Proof.
  intros Hdown Hadd.
  assert (Hnone : vectorstore self' = None).
  { destruct self as [v h].
    unfold add_faq_entry, try_except in Hadd. unfold bind at 1 in Hadd.
    destruct (append_to_faq_file sv (faq_entry question answer category)
                                 {| vectorstore := v; history := h |})
      as [[[] | e] [v1 h1]]; [ | discriminate Hadd].
    unfold bind at 1 in Hadd.
    destruct (load_knowledge_base_frame sv h1)
      as (store & calls & Hrun & Hshape).
    rewrite Hrun in Hadd. unfold ret in Hadd.
    injection Hadd as <-. cbn [vectorstore].
    destruct (os_makedirs sv h1 kb_dir); [ | exact (proj1 Hshape)].
    destruct store as [built | ]; [ | reflexivity].
    destruct Hshape as [_ Hbuild].
    destruct (Hbuild built eq_refl)
      as (documents & splits & reads & _ & _ & _ & Hfaiss).
    destruct (Hdown (h1 ++ Makedirs kb_dir
                        :: reads ++ [SplitDocuments 1000 200 documents])
                    splits) as [e He].
    rewrite He in Hfaiss. discriminate Hfaiss. }
  split; [exact Hnone | ]. split.
  - unfold Rest.get_knowledge_base_stats, try_except, bind, get_vectorstore.
    rewrite Hnone. reflexivity.
  - intros asked context out Hreply.
    rewrite answer_question_run, Hreply. cbn [fst].
    unfold relevant_context_of, related_questions_of. rewrite Hnone.
    reflexivity.
Qed.

Lemma add_entry_while_embeddings_down_witness :
  vectorstore (snd (add_faq_entry Scenario.embeddings_down
                                  (lit "Do you ship abroad?") (lit "Yes")
                                  general Scenario.with_index)) = None
  /\ fst (answer_question
            Scenario.embeddings_down Scenario.short_question []
            (snd (add_faq_entry Scenario.embeddings_down
                                (lit "Do you ship abroad?") (lit "Yes")
                                general Scenario.with_index)))
     = Ok {| answer := lit "We are open on weekdays.";
             confidence := decimal 3 1;
             source := knowledge_base;
             related_questions := [] |}.
Proof.
  destruct (add_entry_while_embeddings_down
              Scenario.embeddings_down Observe.ready Scenario.with_index
              (snd (add_faq_entry Scenario.embeddings_down
                                  (lit "Do you ship abroad?") (lit "Yes")
                                  general Scenario.with_index))
              (lit "Do you ship abroad?") (lit "Yes") general)
    as (Hnone & _ & Hanswer).
  - intros h splits. exists Scenario.timeout. reflexivity.
  - reflexivity.
  - split; [exact Hnone | ].
    apply (Hanswer Scenario.short_question []
                   (lit " We are open on weekdays. ")).
    reflexivity.
Defined.

Module EntryFacts.

Lemma split_at_newline (x y rest rest' : str) :
  contains 10%N x = false ->
  contains 10%N y = false ->
  x ++ newline ++ rest = y ++ newline ++ rest' ->
  x = y /\ rest = rest'.
Proof.
  revert y. induction x as [ | c x IH]; intros y Hx Hy Heq.
  - destruct y as [ | d y]; [injection Heq as ->; split; reflexivity | ].
    cbn in Heq. injection Heq as Hd _. subst d.
    cbn in Hy. discriminate Hy.
  - destruct y as [ | d y].
    + cbn in Heq. injection Heq as Hc _. subst c.
      cbn in Hx. discriminate Hx.
    + cbn in Heq. injection Heq as -> Heq.
      cbn [contains existsb] in Hx, Hy.
      apply orb_false_elim in Hx. apply orb_false_elim in Hy.
      destruct (IH y (proj2 Hx) (proj2 Hy) Heq) as [-> ->].
      split; reflexivity.
Qed.

End EntryFacts.
Import EntryFacts.

(** X19. The text of an entry determines its fields when the question
    and the answer hold no newline (code point 10): two entries that are
    written alike have the same question, answer and category.  The
    category may hold anything. *)
Theorem faq_entry_injective (question answer category
                             question' answer' category' : str) :
  contains 10%N question = false ->
  contains 10%N question' = false ->
  contains 10%N answer = false ->
  contains 10%N answer' = false ->
  faq_entry question answer category = faq_entry question' answer' category' ->
  question = question' /\ answer = answer' /\ category = category'.
Proof.
  intros Hq Hq' Ha Ha' Heq. unfold faq_entry in Heq.
  apply app_inv_head in Heq.
  apply split_at_newline in Heq; [ | exact Hq | exact Hq'].
  destruct Heq as [-> Heq]. apply app_inv_head in Heq.
  apply split_at_newline in Heq; [ | exact Ha | exact Ha'].
  destruct Heq as [-> Heq]. apply app_inv_head in Heq.
  rewrite !app_assoc in Heq. apply app_inv_tail in Heq.
  apply app_inv_tail in Heq. subst category'.
  split; [ | split]; reflexivity.
Qed.

Lemma faq_entry_injective_witness :
  lit "Do you ship abroad?" = lit "Do you ship abroad?"
  /\ lit "Yes" = lit "Yes" /\ general = general.
Proof.
  apply (faq_entry_injective (lit "Do you ship abroad?") (lit "Yes") general
                             (lit "Do you ship abroad?") (lit "Yes") general);
    reflexivity.
Defined.

(** ** Statistics, construction and the endpoint *)

(** X20. [get_knowledge_base_stats] never raises and changes nothing.
    Its status is empty exactly when the processor has no index; a
    status other than loaded comes with a count of 0 and no time stamp,
    and the status loaded with a time stamp; the status is error exactly
    when reading the count of the index raised. *)
Theorem stats_outcome {index : Type} (cl : Rest.clients index)
        (self : processor index) :
  exists stats,
    Rest.get_knowledge_base_stats cl self = (Ok stats, self)
    /\ (Rest.status stats = Rest.empty <-> vectorstore self = None)
    /\ (Rest.status stats = error
        <-> exists store e,
              vectorstore self = Some store
              /\ Rest.index_ntotal cl (history self) store = Raise e)
    /\ (Rest.status stats = Rest.empty \/ Rest.status stats = error
        \/ Rest.status stats = Rest.loaded)
    /\ (Rest.status stats <> Rest.loaded ->
        Rest.documents stats = 0 /\ Rest.last_updated stats = None)
    /\ (Rest.status stats = Rest.loaded ->
        Rest.last_updated stats = Some (Rest.now_isoformat cl (history self))).
Proof.
  unfold Rest.get_knowledge_base_stats, try_except, bind, get_vectorstore,
    Rest.unrecorded, ret.
  destruct (vectorstore self) as [store | ] eqn:Hv.
  - destruct (Rest.index_ntotal cl (history self) store) as [n | e] eqn:Hn.
    + eexists. split; [reflexivity | ]. cbn [Rest.status Rest.documents
                                              Rest.last_updated].
      split; [split; discriminate | ].
      split; [split; [discriminate | ] | ].
      { intros (store' & e & Hs & He). injection Hs as <-.
        rewrite Hn in He. discriminate He. }
      split; [right; right; reflexivity | ].
      split; [intros H; contradiction H; reflexivity | reflexivity].
    + eexists. split; [reflexivity | ]. cbn [Rest.status Rest.documents
                                              Rest.last_updated].
      split; [split; discriminate | ].
      split; [split; [intros _; exists store, e; split; [reflexivity | exact Hn]
                     | reflexivity] | ].
      split; [right; left; reflexivity | ].
      split; [intros _; split; reflexivity | discriminate].
  - eexists. split; [reflexivity | ]. cbn [Rest.status Rest.documents
                                            Rest.last_updated].
    split; [split; reflexivity | ].
    split; [split; [discriminate | intros (store & e & Hs & _); discriminate Hs] | ].
    split; [left; reflexivity | ].
    split; [intros _; split; reflexivity | discriminate].
Qed.

Lemma stats_outcome_witness :
  exists stats,
    Rest.get_knowledge_base_stats Observe.ready Scenario.with_index
    = (Ok stats, Scenario.with_index)
    /\ Rest.status stats = Rest.loaded
    /\ Rest.last_updated stats = Some (lit "2024-01-01T00:00:00").
Proof.
  destruct (stats_outcome Observe.ready Scenario.with_index)
    as (stats & Hrun & _ & _ & _ & _ & Hloaded).
  exists stats. split; [exact Hrun | ].
  vm_compute in Hrun. injection Hrun as <-.
  split; [reflexivity | apply Hloaded; reflexivity].
Defined.

(** X21. Constructing a processor fails only when the constructor of
    one of the two OpenAI clients raises, and then with that exception.
    Nothing that goes wrong with the knowledge base prevents the
    construction: the object is then built without an index.  The first
    call of a constructed processor creates the directory of the
    knowledge base. *)
Theorem constructor_outcome {index : Type} (sv : services index)
        (cl : Rest.clients index) (calls : list call) :
  match Rest.openai_new cl calls, Rest.openai_embeddings_new cl calls with
  | Raise e, _ => Rest.FAQProcessor sv cl calls = Raise e
  | Ok _, Raise e => Rest.FAQProcessor sv cl calls = Raise e
  | Ok _, Ok _ =>
      exists self rest,
        Rest.FAQProcessor sv cl calls = Ok self
        /\ history self = calls ++ Makedirs kb_dir :: rest
        /\ match os_makedirs sv calls kb_dir with
           | Ok _ => Observe.probes rest = faq_files
           | Raise _ => rest = [] /\ vectorstore self = None
           end
  end.
Proof.
  destruct (load_knowledge_base_frame sv calls)
    as (store & rest & Hrun & Hshape).
  unfold Rest.FAQProcessor, Rest.__init__, bind, Rest.unrecorded,
    set_vectorstore.
  cbn [history].
  destruct (Rest.openai_new cl calls) as [[] | e];
    destruct (Rest.openai_embeddings_new cl calls) as [[] | e'];
    try reflexivity.
  rewrite Hrun. eexists _, rest. split; [reflexivity | ].
  split; [reflexivity | ]. cbn [vectorstore].
  destruct (os_makedirs sv calls kb_dir).
  - exact (proj1 Hshape).
  - destruct Hshape as [-> ->]. split; reflexivity.
Qed.

(** X22. The endpoint [/faq/answer] raises its HTTP error 500 only
    when no processor has been set up.  With a processor it always
    returns the status success, also when the answer chain raised: the
    payload is then the apology with confidence 0.0, and the handler of
    the endpoint for a failing processor is never entered. *)
Theorem endpoint_outcome {index : Type} (sv : services index)
        (faq_processor : option (processor index)) (request : Main.FAQRequest) :
  match faq_processor with
  | None =>
      fst (Main.answer_question sv faq_processor request)
      = inl (Main.HTTPException 500 (lit "FAQ processor not initialized"))
  | Some self =>
      exists response,
        Main.answer_question sv faq_processor request
        = (inr {| Main.payload_status := lit "success";
                  Main.payload_answer := response |},
           Some (snd (answer_question sv (Main.question request)
                                      (Main.context request) self)))
        /\ match answer_reply sv self (Main.question request)
                              (Main.context request) with
           | Ok out => source response = knowledge_base
                       /\ answer response = strip out
           | Raise _ => response = failed_response
           end
  end.
Proof.
  destruct faq_processor as [self | ]; [ | reflexivity].
  unfold Main.answer_question. rewrite answer_question_run.
  destruct (answer_reply sv self (Main.question request)
                         (Main.context request)) as [out | e];
    eexists; (split; [reflexivity | ]); [split | ]; reflexivity.
Qed.

(** X23. [generate_call_response] raises only what the construction of
    the processor or the speech synthesis raised.  With a processor
    built, what it has spoken is the stripped reply of the answer chain,
    or the apology when the answer chain raised: a caller hears the
    apology, no error; and the text spoken neither starts nor ends with
    white space. *)
Theorem call_response_outcome {index audio : Type} (sv : services index)
        (cl : Rest.clients index)
        (synthesize_speech : list call -> str -> result audio)
        (calls : list call) (transcription context : str) :
  match Rest.FAQProcessor sv cl calls with
  | Raise e =>
      Voice.generate_call_response sv cl synthesize_speech calls
                                   transcription context = Raise e
  | Ok faq_processor =>
      exists text,
        Voice.generate_call_response sv cl synthesize_speech calls
                                     transcription context
        = synthesize_speech
            (history (snd (answer_question sv transcription context
                                           faq_processor)))
            text
        /\ text = match answer_reply sv faq_processor transcription context with
                  | Ok out => strip out
                  | Raise _ => apology
                  end
        /\ Observe.is_stripped text = true
  end.
Proof.
  unfold Voice.generate_call_response.
  destruct (Rest.FAQProcessor sv cl calls) as [faq_processor | e];
    [ | reflexivity].
  rewrite answer_question_run.
  destruct (answer_reply sv faq_processor transcription context) as [out | e];
    cbn [snd answer failed_response].
  - exists (strip out). split; [reflexivity | ].
    split; [reflexivity | apply strip_is_stripped].
  - exists apology. split; [reflexivity | ]. split; reflexivity.
Qed.

Module GatherFacts.
Section GatherFacts.
Context {index : Type} (sv : services index).

(** [load_files] adds to the documents that it is given, and what a
    file that always exists and always loads holds is among them *)
Lemma load_files_gathers paths : forall documents h,
  exists more calls,
    (forall v,
       load_files sv paths documents {| vectorstore := v; history := h |}
       = (Ok (documents ++ more),
          {| vectorstore := v; history := h ++ calls |}))
    /\ forall path docs,
         In path paths ->
         (forall h', os_path_exists sv h' path = true) ->
         (forall h', text_loader_load sv h' path = Ok docs) ->
         incl docs more.
Proof.
  induction paths as [ | file_path rest IH]; intros documents h.
  - exists [], []. split; [ | intros path docs []].
    intros v. rewrite !app_nil_r. reflexivity.
  - destruct (os_path_exists sv h file_path) eqn:He.
    + destruct (text_loader_load sv (h ++ [PathExists file_path]) file_path)
        as [docs | e] eqn:Hl.
      * destruct (IH (documents ++ docs)
                     ((h ++ [PathExists file_path]) ++ [LoaderLoad file_path]))
          as (more & calls & Hrun & Hin).
        exists (docs ++ more),
          (PathExists file_path :: LoaderLoad file_path :: calls).
        split.
        -- intros v. cbn [load_files]. unfold bind at 1.
           unfold path_exists, external_total, external.
           cbn [history vectorstore]. rewrite He.
           unfold bind at 1. unfold try_except, bind, loader_load, external, ret.
           cbn [history vectorstore]. rewrite Hl, Hrun, <- !app_assoc.
           reflexivity.
        -- intros path docs' [<- | Hrest] Hex Hload.
           ++ rewrite Hload in Hl. injection Hl as ->.
              apply incl_appl, incl_refl.
           ++ apply incl_appr. exact (Hin path docs' Hrest Hex Hload).
      * destruct (IH documents
                     ((h ++ [PathExists file_path]) ++ [LoaderLoad file_path]))
          as (more & calls & Hrun & Hin).
        exists more, (PathExists file_path :: LoaderLoad file_path :: calls).
        split.
        -- intros v. cbn [load_files]. unfold bind at 1.
           unfold path_exists, external_total, external.
           cbn [history vectorstore]. rewrite He.
           unfold bind at 1. unfold try_except, bind, loader_load, external, ret.
           cbn [history vectorstore]. rewrite Hl, Hrun, <- !app_assoc.
           reflexivity.
        -- intros path docs' [<- | Hrest] Hex Hload.
           ++ rewrite Hload in Hl. discriminate Hl.
           ++ exact (Hin path docs' Hrest Hex Hload).
    + destruct (IH documents (h ++ [PathExists file_path]))
        as (more & calls & Hrun & Hin).
      exists more, (PathExists file_path :: calls).
      split.
      * intros v. cbn [load_files]. unfold bind at 1.
        unfold path_exists, external_total, external.
        cbn [history vectorstore]. rewrite He.
        unfold bind at 1. unfold ret at 1. rewrite Hrun, <- !app_assoc.
        reflexivity.
      * intros path docs' [<- | Hrest] Hex Hload.
        -- rewrite Hex in He. discriminate He.
        -- exact (Hin path docs' Hrest Hex Hload).
Qed.

End GatherFacts.
End GatherFacts.
Import GatherFacts.

(** X24. One readable file is enough: when the directory can be
    created and one of the three files exists and loads a non-empty list
    of documents, the reload hands documents to the splitter, with chunk
    size 1000 and overlap 200, and the documents of that file are among
    them, whether or not the other files exist and whatever their
    loaders raise. *)
Theorem one_readable_file_suffices {index : Type} (sv : services index)
        (self : processor index) (path : str) (docs : list Document) :
  In path faq_files ->
  docs <> [] ->
  (forall h, os_path_exists sv h path = true) ->
  (forall h, text_loader_load sv h path = Ok docs) ->
  os_makedirs sv (history self) kb_dir = Ok tt ->
  exists documents before after,
    history (snd (load_knowledge_base sv self))
    = before ++ SplitDocuments 1000 200 documents :: after
    /\ incl docs documents
    /\ (vectorstore (snd (load_knowledge_base sv self)) = None
        <-> (exists e, split_documents sv before 1000 200 documents = Raise e)
            \/ exists splits e,
                 split_documents sv before 1000 200 documents = Ok splits
                 /\ faiss_from_documents
                      sv (before ++ [SplitDocuments 1000 200 documents]) splits
                    = Raise e).
Proof.
  intros Hin Hne Hex Hload Hmk. destruct self as [v h].
  cbn [history] in Hmk.
  destruct (load_files_gathers sv faq_files [] (h ++ [Makedirs kb_dir]))
    as (more & calls & Hrun & Hgather).
  pose proof (Hgather path docs Hin Hex Hload) as Hincl.
  cbn [app] in Hrun.
  assert (Hmore : more <> []).
  { intros ->. destruct docs as [ | d docs]; [apply Hne; reflexivity | ].
    exact (Hincl d (or_introl eq_refl)). }
  remember (load_knowledge_base sv {| vectorstore := v; history := h |})
    as run eqn:Hr.
  unfold load_knowledge_base, try_except, load_knowledge_base_body in Hr.
  unfold bind at 1 in Hr. unfold makedirs, external in Hr.
  cbn [history vectorstore] in Hr. rewrite Hmk in Hr.
  unfold bind at 1 in Hr. rewrite Hrun in Hr.
  destruct more as [ | doc rest]; [contradiction Hmore; reflexivity | ].
  exists (doc :: rest), ((h ++ [Makedirs kb_dir]) ++ calls).
  unfold bind at 1 in Hr. unfold splitter_split_documents, external in Hr.
  cbn [history vectorstore] in Hr.
  destruct (split_documents sv ((h ++ [Makedirs kb_dir]) ++ calls)
                            1000 200 (doc :: rest)) as [splits | e].
  - unfold bind at 1 in Hr. unfold faiss_build, external in Hr.
    cbn [history vectorstore] in Hr.
    destruct (faiss_from_documents
                sv (((h ++ [Makedirs kb_dir]) ++ calls)
                      ++ [SplitDocuments 1000 200 (doc :: rest)]) splits)
      as [built | e] eqn:Hbuild.
    + exists [FaissFromDocuments splits]. unfold set_vectorstore in Hr.
      subst run. cbn [snd history vectorstore].
      split; [rewrite <- !app_assoc; reflexivity | ].
      split; [exact Hincl | ].
      split; [discriminate | ].
      intros [[e Hs] | (splits' & e & Hs & Hf)]; [discriminate Hs | ].
      injection Hs as <-. rewrite Hbuild in Hf. discriminate Hf.
    + exists [FaissFromDocuments splits]. unfold set_vectorstore in Hr.
      subst run. cbn [snd history vectorstore].
      split; [rewrite <- !app_assoc; reflexivity | ].
      split; [exact Hincl | ].
      split; [ | reflexivity].
      intros _. right. exists splits, e. split; [reflexivity | exact Hbuild].
  - exists []. unfold set_vectorstore in Hr.
    subst run. cbn [snd history vectorstore].
    split; [reflexivity | ]. split; [exact Hincl | ].
    split; [intros _; left; exists e; reflexivity | reflexivity].
Qed.

Lemma one_readable_file_witness :
  exists documents before after,
    history (snd (load_knowledge_base Scenario.healthy Scenario.without_index))
    = before ++ SplitDocuments 1000 200 documents :: after
    /\ incl [Scenario.chunk] documents
    /\ (vectorstore (snd (load_knowledge_base Scenario.healthy
                                              Scenario.without_index)) = None
        <-> (exists e, split_documents Scenario.healthy before 1000 200
                                       documents = Raise e)
            \/ exists splits e,
                 split_documents Scenario.healthy before 1000 200 documents
                 = Ok splits
                 /\ faiss_from_documents
                      Scenario.healthy
                      (before ++ [SplitDocuments 1000 200 documents]) splits
                    = Raise e).
Proof.
  apply (one_readable_file_suffices Scenario.healthy Scenario.without_index
                                    faq_file [Scenario.chunk]).
  - left. reflexivity.
  - discriminate.
  - intros h. reflexivity.
  - intros h. reflexivity.
  - reflexivity.
Defined.
